(** * JvavSprict: a shallow embedding of the line interpreter [jvs.py]

    The interpreter class [JvavSprictInterpreter] keeps two dictionaries
    ([variables], [functions]) and prints to the standard output.  It is
    embedded here as a state-and-exception monad over a record holding the
    two dictionaries and the list of things printed so far.

    Source text is modelled as [string] over the ASCII range.  The regular
    expressions of the source are transcribed into a small pattern type and
    run by a backtracking matcher.  Python's [eval], [str] and the values
    they handle belong to the host and are an interface ([Host]). *)

From Stdlib Require Import String Ascii List ZArith Lia Bool.
From stdpp Require Import base option list gmap strings.

Import ListNotations.
Local Open Scope string_scope.
Local Open Scope list_scope.

(** ** Text operations of the host language *)

Module Text.

Definition newline : ascii := ascii_of_nat 10.
Definition dquote : ascii := ascii_of_nat 34.
Definition squote : ascii := ascii_of_nat 39.

(** [str.isspace] on the ASCII range: TAB..CR, FS..US and the blank. *)
Definition is_space (c : ascii) : bool :=
  let n := nat_of_ascii c in
  ((9 <=? n)%nat && (n <=? 13)%nat) || ((28 <=? n)%nat && (n <=? 32)%nat).

(** The class [\w] on the ASCII range: letters, digits and underscore. *)
Definition is_word (c : ascii) : bool :=
  let n := nat_of_ascii c in
  ((48 <=? n)%nat && (n <=? 57)%nat) || ((65 <=? n)%nat && (n <=? 90)%nat)
  || ((97 <=? n)%nat && (n <=? 122)%nat) || (n =? 95)%nat.

Definition is_char (a : ascii) (c : ascii) : bool := Ascii.eqb a c.

Definition is_empty (s : string) : bool :=
  match s with EmptyString => true | String _ _ => false end.

Fixpoint lstrip_by (p : ascii -> bool) (s : string) : string :=
  match s with
  | EmptyString => EmptyString
  | String c s' => if p c then lstrip_by p s' else s
  end.

Fixpoint rstrip_by (p : ascii -> bool) (s : string) : string :=
  match s with
  | EmptyString => EmptyString
  | String c s' =>
      let r := rstrip_by p s' in
      if p c && is_empty r then EmptyString else String c r
  end.

Definition strip_by (p : ascii -> bool) (s : string) : string :=
  rstrip_by p (lstrip_by p s).

(** [s.strip()] *)
Definition strip (s : string) : string := strip_by is_space s.

(** [s.strip(c)] for a one-character argument *)
Definition strip_char (c : ascii) (s : string) : string := strip_by (is_char c) s.

(** [s.startswith(p)] *)
Definition startswith (p s : string) : bool := String.prefix p s.

(** [c in s] for a one-character [c] *)
Fixpoint contains (c : ascii) (s : string) : bool :=
  match s with
  | EmptyString => false
  | String a s' => Ascii.eqb a c || contains c s'
  end.

(** [s.split(sep)] for a one-character separator: never the empty list. *)
Fixpoint split (sep : ascii) (s : string) : list string :=
  match s with
  | EmptyString => [EmptyString]
  | String c s' =>
      if Ascii.eqb c sep then EmptyString :: split sep s'
      else match split sep s' with
           | h :: t => String c h :: t
           | [] => [String c EmptyString]
           end
  end.

(** [s.replace(old, new)]: every non-overlapping occurrence, left to right.
    [skip] counts the characters of an occurrence still to be dropped.  With
    an empty [old] Python inserts [new] before every character and at the
    end. *)
Fixpoint replace_from (old new : string) (skip : nat) (s : string) : string :=
  match s with
  | EmptyString => if is_empty old then new else EmptyString
  | String c s' =>
      match skip with
      | S k => replace_from old new k s'
      | O =>
          if is_empty old then new +:+ String c (replace_from old new 0 s')
          else if String.prefix old s
               then new +:+ replace_from old new (String.length old - 1) s'
               else String c (replace_from old new 0 s')
      end
  end.

Definition replace (old new : string) (s : string) : string :=
  replace_from old new 0 s.

(** The comprehension of the source that splits at commas, strips every
    piece and keeps the pieces that are not empty. *)
Definition split_trimmed (s : string) : list string :=
  List.filter (fun x => negb (is_empty x)) (List.map strip (split "," s)).

(** Every character of [s] satisfies [p]. *)
Fixpoint all_chars (p : ascii -> bool) (s : string) : bool :=
  match s with
  | EmptyString => true
  | String c s' => p c && all_chars p s'
  end.

Definition first_char (s : string) : option ascii :=
  match s with
  | EmptyString => None
  | String c _ => Some c
  end.

Fixpoint last_char (s : string) : option ascii :=
  match s with
  | EmptyString => None
  | String c s' => match last_char s' with Some d => Some d | None => Some c end
  end.

(** Neither the first nor the last character of [s] satisfies [p]. *)
Definition edge_free (p : ascii -> bool) (s : string) : bool :=
  match first_char s, last_char s with
  | Some a, Some b => negb (p a) && negb (p b)
  | _, _ => true
  end.

End Text.

(** ** The regular expressions of the source

    Every pattern of [jvs.py] is a sequence of single characters and character
    classes, each taken once or repeated greedily or lazily, with capture
    groups that do not nest.  [re.match] anchors at the start of the text and
    tries the alternatives of a repetition in the order of Python's
    backtracking matcher: longest first for a greedy repetition, shortest first
    for a lazy one. *)

Module Re.

Inductive cclass : Type :=
| Chr (c : ascii)   (* a literal character *)
| Dot               (* [.]: anything but a newline *)
| Space             (* [\s] *)
| Word.             (* [\w] *)

Inductive quant : Type :=
| Once
| Greedy (min : nat)    (* star is [Greedy 0], plus is [Greedy 1] *)
| Lazy (min : nat).     (* the lazy star is [Lazy 0] *)

Inductive node : Type :=
| Atom (c : cclass) (q : quant)
| GroupStart
| GroupEnd.

Definition regex : Type := list node.

Definition accepts (c : cclass) (a : ascii) : bool :=
  match c with
  | Chr x => Ascii.eqb a x
  | Dot => negb (Ascii.eqb a Text.newline)
  | Space => Text.is_space a
  | Word => Text.is_word a
  end.

(** The group being captured, if one is open, grows by the character read. *)
Definition push (a : ascii) (cur : option string) : option string :=
  match cur with
  | Some g => Some (g +:+ String a EmptyString)
  | None => None
  end.

Definition guard (b : bool) (r : option (list string)) : option (list string) :=
  if b then r else None.

Definition or_else (r1 r2 : option (list string)) : option (list string) :=
  match r1 with Some _ => r1 | None => r2 end.

Fixpoint run (p : regex) (s : string) (caps : list string) (cur : option string)
  {struct p} : option (list string) :=
  match p with
  | [] => Some caps
  | GroupStart :: p' => run p' s caps (Some EmptyString)
  | GroupEnd :: p' => run p' s (caps ++ [default EmptyString cur]) None
  | Atom c Once :: p' =>
      match s with
      | String a s' => if accepts c a then run p' s' caps (push a cur) else None
      | EmptyString => None
      end
  | Atom c (Greedy min) :: p' =>
      (fix many (s : string) (n : nat) (cur : option string) {struct s} :=
         let stop := guard (min <=? n)%nat (run p' s caps cur) in
         match s with
         | String a s' =>
             if accepts c a then or_else (many s' (S n) (push a cur)) stop else stop
         | EmptyString => stop
         end) s 0%nat cur
  | Atom c (Lazy min) :: p' =>
      (fix many (s : string) (n : nat) (cur : option string) {struct s} :=
         let stop := guard (min <=? n)%nat (run p' s caps cur) in
         match s with
         | String a s' =>
             if accepts c a then or_else stop (many s' (S n) (push a cur)) else stop
         | EmptyString => stop
         end) s 0%nat cur
  end.

(** [re.match(pattern, s)]: [None] when there is no match, otherwise the
    captured groups in order. *)
Definition re_match (p : regex) (s : string) : option (list string) :=
  run p s [] None.

Fixpoint lit (s : string) : regex :=
  match s with
  | EmptyString => []
  | String c s' => Atom (Chr c) Once :: lit s'
  end.

Definition star (c : cclass) : node := Atom c (Greedy 0).
Definition plus (c : cclass) : node := Atom c (Greedy 1).
Definition lazy_star (c : cclass) : node := Atom c (Lazy 0).

(** The pattern of [handle_variable_declaration]: the word var, [\s+], a
    group of [\w+], [\s*], an equals sign, [\s*], a group of greedy dots. *)
Definition var_pattern : regex :=
  lit "var" ++ [plus Space; GroupStart; plus Word; GroupEnd; star Space]
    ++ lit "=" ++ [star Space; GroupStart; star Dot; GroupEnd].

(** The pattern of [handle_function_definition]: the word func, [\s+], a
    group of [\w+], an opening parenthesis, a group of lazy dots, a closing
    parenthesis, [\s*], an opening brace. *)
Definition func_pattern : regex :=
  lit "func" ++ [plus Space; GroupStart; plus Word; GroupEnd]
    ++ lit "(" ++ [GroupStart; lazy_star Dot; GroupEnd]
    ++ lit ")" ++ [star Space] ++ lit "{".

(** The pattern tested by [process_lines] for a call statement: greedy
    dots, an opening parenthesis, greedy dots, a closing parenthesis. *)
Definition statement_call_pattern : regex :=
  [star Dot] ++ lit "(" ++ [star Dot] ++ lit ")".

(** The pattern of [handle_function_call]: a group of [\w+], an opening
    parenthesis, a group of greedy dots, a closing parenthesis. *)
Definition call_pattern : regex :=
  [GroupStart; plus Word; GroupEnd] ++ lit "("
    ++ [GroupStart; star Dot; GroupEnd] ++ lit ")".

(** The pattern of [handle_log]: the text log and an opening parenthesis, a
    group of one or more greedy dots, a closing parenthesis. *)
Definition log_pattern : regex :=
  lit "log(" ++ [GroupStart; plus Dot; GroupEnd] ++ lit ")".

End Re.

(** ** Exceptions, host values and the trace of printed output *)

(** The exception classes the interpreter raises itself, and what [eval] may
    raise besides them.  Only subclasses of [Exception] are modelled: those are
    the ones the [except Exception] clauses of the source catch. *)
Inductive exn : Type :=
| SyntaxError (msg : string)
| NameError (msg : string)
| ValueError (msg : string)
| KeyError (key : string)
| HostError (type_name msg : string).

(** The host side of the interpreter: the values [eval] produces, [None],
    [str] and [eval] itself.  [eval] is taken as a function of the expression
    text: it neither reads nor changes the interpreter object. *)
Class Host : Type := {
  value : Type;
  py_None : value;
  py_str : value -> string;
  py_eval : string -> value + exn
}.

(** What reaches the standard output.  [print_exception_trace] prints a
    banner, the exception class with its message, the line (when the line
    number is not negative) and host stack frames; the frames are file paths of
    the host and are left out. *)
Inductive event : Type :=
| Printed (text : string)
| Diagnostic (e : exn) (at_line : option (Z * string)).

(** ** Python dictionaries keyed by strings, in insertion order *)

Module Dict.

Definition t (V : Type) : Type := list (string * V).

Fixpoint get {V} (k : string) (d : t V) : option V :=
  match d with
  | [] => None
  | (k', v) :: d' => if String.eqb k' k then Some v else get k d'
  end.

(** [d[k] = v]: an existing key keeps its position, a new one goes last. *)
Fixpoint set {V} (k : string) (v : V) (d : t V) : t V :=
  match d with
  | [] => [(k, v)]
  | (k', v') :: d' =>
      if String.eqb k' k then (k', v) :: d' else (k', v') :: set k v d'
  end.

End Dict.

(** ** The interpreter object and its monad *)

Section Interpreter.

Context `{H : Host}.

(** The fields [self.variables] and [self.functions], and the output. *)
Record interp : Type := Interp {
  variables : Dict.t value;
  functions : gmap string (list string * list string);
  stdout : list event
}.

Definition initial : interp :=
  {| variables := []; functions := ∅; stdout := [] |}.

Inductive outcome (A : Type) : Type :=
| Return (a : A)
| Raise (e : exn).
Global Arguments Return {A} a.
Global Arguments Raise {A} e.

(** A method of the interpreter: from the object before to the way it ends
    and the object after.  [None] stands for a run that the given fuel does
    not let finish; it is no behaviour of the source.  Programs that nest
    calls beyond the recursion limit of the host are outside the model. *)
Definition M (A : Type) : Type := interp -> option (outcome A * interp).

Definition ret {A} (a : A) : M A := fun st => Some (Return a, st).

Definition raise {A} (e : exn) : M A := fun st => Some (Raise e, st).

Definition bind {A B} (m : M A) (k : A -> M B) : M B :=
  fun st =>
    match m st with
    | None => None
    | Some (Return a, st') => k a st'
    | Some (Raise e, st') => Some (Raise e, st')
    end.

Definition out_of_fuel {A} : M A := fun _ => None.

(** [try: m  except Exception as e: h e].  What [m] did to the object before
    it raised stays done. *)
Definition try_except {A} (m : M A) (h : exn -> M A) : M A :=
  fun st =>
    match m st with
    | Some (Raise e, st') => h e st'
    | r => r
    end.

Definition get : M interp := fun st => Some (Return st, st).

Definition set_variables (vs : Dict.t value) : M unit :=
  fun st => Some (Return tt, {| variables := vs; functions := functions st;
                                stdout := stdout st |}).

Definition set_variable (k : string) (v : value) : M unit :=
  fun st => Some (Return tt, {| variables := Dict.set k v (variables st);
                                functions := functions st;
                                stdout := stdout st |}).

Definition set_function (k : string) (d : list string * list string) : M unit :=
  fun st => Some (Return tt, {| variables := variables st;
                                functions := <[k := d]> (functions st);
                                stdout := stdout st |}).

Definition print (ev : event) : M unit :=
  fun st => Some (Return tt, {| variables := variables st;
                                functions := functions st;
                                stdout := stdout st ++ [ev] |}).

End Interpreter.

Global Instance M_ret `{Host} : MRet M := @ret _.
Global Instance M_bind `{Host} : MBind M := fun A B k m => bind m k.

Section Methods.

Context `{H : Host}.

(** [print_exception_trace(line_number, line, exception)] *)
Definition print_exception_trace (line_number : Z) (line : string) (e : exn)
  : M unit :=
  print (Diagnostic e (if (0 <=? line_number)%Z
                       then Some ((line_number + 1)%Z, Text.strip line)
                       else None)).

(** The loop of [evaluate_expression] that replaces every variable name by
    the text of its value, in the order of the dictionary. *)
Definition substitute (vars : Dict.t value) (expr : string) : string :=
  fold_left (fun e kv => Text.replace (fst kv) (py_str (snd kv)) e) vars expr.

Definition evaluate_expression (expr : string) : M value :=
  st ← get;
  let expr := substitute (variables st) expr in
  try_except
    (match py_eval expr with
     | inl v => ret v
     | inr e => raise e
     end)
    (fun e => print_exception_trace (-1) expr e;; ret py_None).

Definition handle_variable_declaration (line : string) : M unit :=
  try_except
    (match Re.re_match Re.var_pattern line with
     | Some [var_name; expression] =>
         v ← evaluate_expression expression;
         set_variable var_name v
     | _ => raise (SyntaxError ("Variable declaration syntax error: " +:+ line))
     end)
    (fun e => print_exception_trace (-1) line e;; raise e).

(** The [while] loop of [handle_function_definition].  [rest] holds the lines
    from index [i] on, so the loop test [i < len(lines)] is [rest] not being
    empty. *)
Fixpoint extract_body (rest : list string) (i : nat) (brace_count : Z)
  (body_lines : list string) : nat * list string :=
  match rest with
  | [] => (i, body_lines)
  | l :: rest' =>
      let line := Text.strip l in
      let brace_count :=
        if Text.contains "{" line then (brace_count + 1)%Z else brace_count in
      if Text.contains "}" line then
        let brace_count := (brace_count - 1)%Z in
        if (brace_count =? 0)%Z then (i, body_lines)
        else extract_body rest' (S i) brace_count (body_lines ++ [line])
      else extract_body rest' (S i) brace_count (body_lines ++ [line])
  end.

Definition handle_function_definition (lines : list string) (start : nat)
  : M nat :=
  let header := nth start lines "" in
  match Re.re_match Re.func_pattern (Text.strip header) with
  | Some [func_name; param_list] =>
      let params := Text.split_trimmed param_list in
      let '(i, body_lines) := extract_body (drop (S start) lines) (S start) 1 [] in
      set_function func_name (params, body_lines);;
      ret i
  | _ => raise (SyntaxError ("Function definition syntax error: " +:+ header))
  end.

(** The [for] loop of [call_function] over [zip(params, args)]. *)
Fixpoint bind_parameters (pairs : list (string * string)) : M unit :=
  match pairs with
  | [] => ret tt
  | (param, arg) :: pairs' =>
      v ← evaluate_expression arg;
      set_variable param v;;
      bind_parameters pairs'
  end.

(** [call_function(func_name, args)].  [process_body] is the recursive
    [self.process_lines(body_lines)]. *)
Definition call_function (process_body : list string -> M unit)
  (func_name : string) (args : list string) : M unit :=
  st ← get;
  match functions st !! func_name with
  | None => raise (KeyError func_name)
  | Some (params, body_lines) =>
      if negb (length args =? length params)%nat
      then raise (ValueError ("The number of parameters does not match: "
                              +:+ func_name))
      else
        st ← get;
        let backup_vars := variables st in
        bind_parameters (combine params args);;
        process_body body_lines;;
        set_variables backup_vars
  end.

Definition handle_function_call (process_body : list string -> M unit)
  (line : string) : M unit :=
  match Re.re_match Re.call_pattern line with
  | Some [func_name; arg_list] =>
      let args := Text.split_trimmed arg_list in
      st ← get;
      if bool_decide (is_Some (functions st !! func_name))
      then call_function process_body func_name args
      else raise (NameError ("Unknown function: " +:+ func_name))
  | _ => raise (SyntaxError ("Function call syntax ERROR: " +:+ line))
  end.

Definition handle_log (line : string) : M unit :=
  match Re.re_match Re.log_pattern line with
  | Some [content] =>
      let content := Text.strip content in
      st ← get;
      match Dict.get content (variables st) with
      | Some v => print (Printed (py_str v))
      | None =>
          print (Printed (Text.strip_char Text.squote
                            (Text.strip_char Text.dquote content)))
      end
  | _ => print (Printed ("log() Grammatical errors: " +:+ line))
  end.

(** The body of the [try] in [process_lines] for the stripped line at index
    [i]; the result is the value of [i] at the end of the iteration. *)
Definition statement (process_body : list string -> M unit)
  (lines : list string) (i : nat) (line : string) : M nat :=
  if Text.is_empty line || Text.startswith "//" line then ret (i + 1)%nat
  else
    i ← (if Text.startswith "var " line then
           handle_variable_declaration line;; ret i
         else if Text.startswith "func " line then
           handle_function_definition lines i
         else if Text.startswith "log(" line then
           handle_log line;; ret i
         else if bool_decide (is_Some (Re.re_match Re.statement_call_pattern line)) then
           handle_function_call process_body line;; ret i
         else raise (SyntaxError ("Unknown statement: " +:+ line)));
    ret (i + 1)%nat.

(** [process_lines(lines, start)].  Each round of the [while] loop and each
    nested call takes one unit of [fuel].  The [break] of the handler is the
    answer [None] of the guarded statement. *)
Fixpoint process_lines (fuel : nat) (lines : list string) (i : nat) : M unit :=
  match fuel with
  | O => out_of_fuel
  | S fuel' =>
      if (length lines <=? i)%nat then ret tt
      else
        let line := Text.strip (nth i lines "") in
        next ← try_except
                 (i' ← statement (fun body => process_lines fuel' body 0) lines i line;
                  ret (Some i'))
                 (fun e => print_exception_trace (Z.of_nat i) line e;; ret None);
        match next with
        | Some i' => process_lines fuel' lines i'
        | None => ret tt
        end
  end.

Definition process_body (fuel : nat) (body_lines : list string) : M unit :=
  process_lines fuel body_lines 0.

(** [execute(code)] *)
Definition execute (fuel : nat) (code : string) : M unit :=
  let lines := Text.split Text.newline code in
  try_except
    (process_lines fuel lines 0;;
     st ← get;
     if bool_decide (is_Some (functions st !! "main"))
     then
       print (Printed ("Locate the main function and start executing"
                       +:+ String Text.newline ""));;
       call_function (process_body fuel) "main" []
     else ret tt)
    (fun e => print_exception_trace (-1) "Exceptions to code execution" e).

End Methods.

(** ** Vocabulary of the statements *)

Section Vocabulary.

Context `{H : Host}.

(** A method keeps a relation between the object before and after. *)
Definition frames {A} (R : relation interp) (m : M A) : Prop :=
  forall st r st', m st = Some (r, st') -> R st st'.

(** Whatever [m] ends with, [m'] ends with too: [m'] is [m] with more fuel. *)
Definition refines {A} (m m' : M A) : Prop :=
  forall st res, m st = Some res -> m' st = Some res.

Definition registered (name : string) (st : interp) : Prop :=
  is_Some (functions st !! name).

(** Every function registered before is registered after. *)
Definition keeps_functions : relation interp :=
  fun st st' => forall name, registered name st -> registered name st'.

(** The object after one more thing was printed. *)
Definition with_output (st : interp) (ev : event) : interp :=
  {| variables := variables st; functions := functions st;
     stdout := stdout st ++ [ev] |}.

(** The object with another scope. *)
Definition with_variables (st : interp) (vs : Dict.t value) : interp :=
  {| variables := vs; functions := functions st; stdout := stdout st |}.

(** The object with one more entry in the function table. *)
Definition with_function (st : interp) (name : string)
  (d : list string * list string) : interp :=
  {| variables := variables st; functions := <[name := d]> (functions st);
     stdout := stdout st |}.

End Vocabulary.

(** ** The specification's wording, for comparison with the code *)

Module Spec.

(** The brace counter as the specification describes it, after the lines [ls]
    that follow a function header: it starts at 1, every line that contains
    an opening brace adds one and every line that contains a closing brace
    takes one away. *)
Definition opening (l : string) : Z :=
  if Text.contains "{" (Text.strip l) then 1%Z else 0%Z.

Definition closing (l : string) : Z :=
  if Text.contains "}" (Text.strip l) then 1%Z else 0%Z.

Fixpoint brace_delta (ls : list string) : Z :=
  match ls with
  | [] => 0%Z
  | l :: ls' => (opening l - closing l + brace_delta ls')%Z
  end.

Definition brace_counter (ls : list string) : Z := (1 + brace_delta ls)%Z.

(** The dequoting of the specification: one layer of surrounding single or
    double quotes is taken off, and nothing else. *)
Definition is_quote (c : ascii) : bool :=
  Ascii.eqb c Text.squote || Ascii.eqb c Text.dquote.

Definition strip_one_layer (s : string) : string :=
  match s with
  | String q rest =>
      match Text.last_char rest with
      | Some q' =>
          if is_quote q && Ascii.eqb q q'
          then String.substring 0 (String.length rest - 1) rest
          else s
      | None => s
      end
  | EmptyString => s
  end.

End Spec.

(** ** A small host

    An instance of the host interface that reads decimal integer literals and
    single-quoted texts without escapes, and rejects every other expression
    the way Python's parser rejects ill-formed text.  The examples below run
    the interpreter on it. *)

Module SmallHost.

Inductive val : Type :=
| VNone
| VInt (n : N)
| VStr (s : string).

Definition is_digit (c : ascii) : bool :=
  let n := nat_of_ascii c in (48 <=? n)%nat && (n <=? 57)%nat.

Fixpoint digits_value (acc : N) (s : string) : N :=
  match s with
  | EmptyString => acc
  | String c s' => digits_value (acc * 10 + (N_of_ascii c - 48))%N s'
  end.

Fixpoint digits_of (fuel : nat) (n : N) (acc : string) : string :=
  match fuel with
  | O => acc
  | S fuel' =>
      let acc := String (ascii_of_N (48 + n mod 10)%N) acc in
      if (n <? 10)%N then acc else digits_of fuel' (n / 10)%N acc
  end.

Definition str (v : val) : string :=
  match v with
  | VNone => "None"
  | VInt n => digits_of (S (N.to_nat (N.log2 n))) n ""
  | VStr s => s
  end.

Definition plain (c : ascii) : bool :=
  negb (Ascii.eqb c Text.squote) && negb (Ascii.eqb c (ascii_of_nat 92))
  && negb (Ascii.eqb c Text.newline).

Definition invalid_syntax : exn := SyntaxError "invalid syntax (<string>, line 1)".

Definition eval (expr : string) : val + exn :=
  match expr with
  | String c rest =>
      if is_digit c && Text.all_chars is_digit rest
      then if Ascii.eqb c "0" && negb (Text.is_empty rest)
           then inr invalid_syntax
           else inl (VInt (digits_value 0 expr))
      else if Ascii.eqb c Text.squote then
        let body := String.substring 0 (String.length rest - 1) rest in
        if String.eqb rest (body +:+ String Text.squote "") && Text.all_chars plain body
        then inl (VStr body)
        else inr invalid_syntax
      else inr invalid_syntax
  | EmptyString => inr invalid_syntax
  end.

Definition host : Host :=
  {| value := val; py_None := VNone; py_str := str; py_eval := eval |}.

End SmallHost.

(** ** Interpreters and programs of the examples *)

Module Examples.

Import SmallHost.

Definition state : Type := @interp host.

Definition run_call (fuel : nat) (name : string) (args : list string)
  : state -> option (outcome unit * state) :=
  @call_function host (@process_body host fuel) name args.

(** The body of [f]. *)
Definition f_body : list string :=
  ["var a = 5"; "func g() {"; "log(a)"; "}"; "oops"; "log(x)"].

(** An interpreter in which [a] is bound and [f] takes one parameter; the
    body of [f] rebinds [a], defines [g] and then meets an unknown
    statement. *)
Definition st_f : state :=
  @Interp host
    [("a", VInt 2)]
    {[ "f" := (["x"], f_body) ]}
    [].

(** [st_f] after the call of [f] with one argument: [g] is registered, the
    fault of the body is printed, [a] is what it was. *)
Definition st_f_after : state :=
  @Interp host
    [("a", VInt 2)]
    (<[ "g" := ([], ["log(a)"]) ]> {[ "f" := (["x"], f_body) ]})
    [Diagnostic (SyntaxError "Unknown statement: oops") (Some (5%Z, "oops"))].

(** The text of a program, one statement per line. *)
Definition source (lines : list string) : string :=
  String.concat (String Text.newline "") lines.

(** What [execute] prints before it calls [main]. *)
Definition announcement : event :=
  Printed ("Locate the main function and start executing" +:+ String Text.newline "").

Definition run_program (fuel : nat) (lines : list string)
  : option (outcome unit * state) :=
  @execute host fuel (source lines) (@initial host).

(** What a run printed. *)
Definition output (r : option (outcome unit * state)) : option (list event) :=
  match r with
  | Some (_, st) => Some (stdout st)
  | None => None
  end.

(** [main] calls [f], whose body meets an unknown statement, and then logs. *)
Definition nested_fault : list string :=
  ["func f() {"; "oops"; "log('not reached')"; "}";
   "func main() {"; "f()"; "log('after')"; "}"].

(** A program that is its [main] alone. *)
Definition main_only : list string :=
  ["func main() {"; "log('hi')"; "}"].

(** A sequence with a fault in the middle, a malformed log and a definition. *)
Definition top_level : list string :=
  ["log(b"; "var n = 7"; "func g(a, b) {"; "log(a)"; "}"; "what"; "log(n)"].

End Examples.

(** ** Vocabulary of the further properties *)

Module ReLoop.

Section Loops.

Variable c : Re.cclass.
Variable min : nat.
Variable k : string -> option string -> option (list string).

(** The loop of a greedy repetition in [Re.run], with what [Re.run] does on
    the rest of the pattern as the continuation [k]. *)
Fixpoint greedy (s : string) (n : nat) (cur : option string) {struct s}
  : option (list string) :=
  let stop := Re.guard (min <=? n)%nat (k s cur) in
  match s with
  | String a s' =>
      if Re.accepts c a
      then Re.or_else (greedy s' (S n) (Re.push a cur)) stop
      else stop
  | EmptyString => stop
  end.

(** The loop of a lazy repetition. *)
Fixpoint lazy (s : string) (n : nat) (cur : option string) {struct s}
  : option (list string) :=
  let stop := Re.guard (min <=? n)%nat (k s cur) in
  match s with
  | String a s' =>
      if Re.accepts c a
      then Re.or_else stop (lazy s' (S n) (Re.push a cur))
      else stop
  | EmptyString => stop
  end.

End Loops.

(** The group being captured grown by a whole text. *)
Definition push_text (t : string) (cur : option string) : option string :=
  match cur with
  | Some g => Some (g +:+ t)
  | None => None
  end.

(** What both the log pattern and the call pattern end with: the end of the
    group and a closing parenthesis. *)
Definition closes (caps : list string) (s : string) (cur : option string)
  : option (list string) :=
  Re.run [Re.GroupEnd; Re.Atom (Re.Chr ")") Re.Once] s caps cur.

End ReLoop.

Section MoreVocabulary.

Context `{H : Host}.

(** The names of a dictionary, in iteration order. *)
Definition keys {V} (d : Dict.t V) : list string := map fst d.

(** A line the dispatcher passes over: blank, or a comment. *)
Definition skipped (l : string) : bool :=
  let line := Text.strip l in
  Text.is_empty line || Text.startswith "//" line.

(** The sequence of lines from index [i] up to, not including, index [j]. *)
Definition between (lines : list string) (i j : nat) : list string :=
  take (j - i) (drop i lines).

End MoreVocabulary.

(** ** More interpreters and programs of the examples *)

Module MoreExamples.

Import SmallHost Examples.

(** A declaration and a log of what it declares. *)
Definition declare_and_log : list string := ["var n = 7"; "log(n)"].

(** [initial] with [n] bound to 7. *)
Definition st_n : state := @Interp host [("n", VInt 7)] ∅ [].

(** [st_f] after [a] was declared again. *)
Definition st_a5 : state :=
  @Interp host [("a", VInt 5)] {[ "f" := (["x"], f_body) ]} [].

(** A definition whose braces do not balance. *)
Definition unbalanced : list string := ["func f() {"; "log(1)"; "{"].

(** Blank lines and a comment. *)
Definition blank : list string := [""; "// nothing here"; "   "].

(** A top level that binds [a], and a [main] that binds it again. *)
Definition shadowing : list string :=
  ["var a = 2"; "func main() {"; "var a = 5"; "log(a)"; "}"].

(** [shadowing] after the scan of the top level, and after [execute]. *)
Definition shadowing_scanned : state :=
  @Interp host [("a", VInt 2)]
    {[ "main" := ([], ["var a = 5"; "log(a)"]) ]} [].

Definition shadowing_after : state :=
  @Interp host [("a", VInt 2)]
    {[ "main" := ([], ["var a = 5"; "log(a)"]) ]}
    [announcement; Printed "5"].

End MoreExamples.

(** ** The text operations and the patterns on sample lines *)

Example strip_ex : Text.strip "  a b  " = "a b".
Proof. reflexivity. Qed.
Example split_ex : Text.split "," "a,,b" = ["a"; ""; "b"].
Proof. reflexivity. Qed.
Example replace_ex : Text.replace "ab" "X" "cababab-" = "cXXX-".
Proof. reflexivity. Qed.
Example replace_ex2 : Text.replace "" "-" "abc" = "-a-b-c-".
Proof. reflexivity. Qed.
Example var_ex : Re.re_match Re.var_pattern "var  x1 =  1 + 2" = Some ["x1"; "1 + 2"].
Proof. reflexivity. Qed.
Example var_ex2 : Re.re_match Re.var_pattern "var  = 3" = None.
Proof. reflexivity. Qed.
Example func_ex : Re.re_match Re.func_pattern "func f(a, b) {" = Some ["f"; "a, b"].
Proof. reflexivity. Qed.
Example func_ex2 : Re.re_match Re.func_pattern "func f(a) (b) { )  {" = Some ["f"; "a) (b"].
Proof. reflexivity. Qed.
Example call_ex : Re.re_match Re.call_pattern "f(g(1), 2) )x" = Some ["f"; "g(1), 2) "].
Proof. reflexivity. Qed.
Example log_ex : Re.re_match Re.log_pattern "log()" = None.
Proof. reflexivity. Qed.
Example log_ex2 : Re.re_match Re.log_pattern "log(a))" = Some ["a)"].
Proof. reflexivity. Qed.
Example stc_ex : Re.re_match Re.statement_call_pattern "x = (1)" = Some [].
Proof. reflexivity. Qed.

(** ** Reasoning about methods *)

Section Laws.

Context `{H : Host}.

Lemma run_bind {A B} (m : M A) (k : A -> M B) (st : interp) :
  (m ≫= k) st =
  match m st with
  | None => None
  | Some (Return a, st') => k a st'
  | Some (Raise e, st') => Some (Raise e, st')
  end.
Proof. reflexivity. Qed.

Lemma bind_inv {A B} (m : M A) (k : A -> M B) st r st' :
  (m ≫= k) st = Some (r, st') ->
  (exists e, m st = Some (Raise e, st') /\ r = Raise e) \/
  (exists a st1, m st = Some (Return a, st1) /\ k a st1 = Some (r, st')).
Proof.
  rewrite run_bind. destruct (m st) as [[[a|e] st1]|] eqn:E; try discriminate.
  - intros Hk. right. eauto.
  - intros [= <- <-]. left. eauto.
Qed.

Lemma try_except_inv {A} (m : M A) (h : exn -> M A) st r st' :
  try_except m h st = Some (r, st') ->
  (exists a, m st = Some (Return a, st') /\ r = Return a) \/
  (exists e st1, m st = Some (Raise e, st1) /\ h e st1 = Some (r, st')).
Proof.
  unfold try_except. destruct (m st) as [[[a|e] st1]|] eqn:E; try discriminate.
  - intros [= <- <-]. left. eauto.
  - intros Hh. right. eauto.
Qed.

Section Frames.

Variable R : relation interp.
Context `{!PreOrder R}.

Lemma frames_ret {A} (a : A) : frames R (ret a).
Proof. intros st r st' [= _ <-]. reflexivity. Qed.

Lemma frames_raise {A} (e : exn) : frames R (@raise _ A e).
Proof. intros st r st' [= _ <-]. reflexivity. Qed.

Lemma frames_get : frames R get.
Proof. intros st r st' [= _ <-]. reflexivity. Qed.

Lemma frames_bind {A B} (m : M A) (k : A -> M B) :
  frames R m -> (forall a, frames R (k a)) -> frames R (m ≫= k).
Proof.
  intros Hm Hk st r st' Hrun.
  apply bind_inv in Hrun as [(e & Hm' & _) | (a & st1 & Hm' & Hk')].
  - eapply Hm; eauto.
  - etransitivity; [eapply Hm | eapply Hk]; eauto.
Qed.

Lemma frames_try_except {A} (m : M A) (h : exn -> M A) :
  frames R m -> (forall e, frames R (h e)) -> frames R (try_except m h).
Proof.
  intros Hm Hh st r st' Hrun.
  apply try_except_inv in Hrun as [(a & Hm' & _) | (e & st1 & Hm' & Hh')].
  - eapply Hm; eauto.
  - etransitivity; [eapply Hm | eapply Hh]; eauto.
Qed.

End Frames.

End Laws.

Create HintDb frames.

(** One step of a frame proof: follow the shape of the method. *)
Ltac frames_step :=
  match goal with
  | |- PreOrder _ => apply _
  | |- forall _, _ => intro
  | |- frames _ (ret _) => apply frames_ret
  | |- frames _ (raise _) => apply frames_raise
  | |- frames _ get => apply frames_get
  | |- frames _ (_ ≫= _) => apply frames_bind
  | |- frames _ (try_except _ _) => apply frames_try_except
  | |- frames _ (if ?b then _ else _) => destruct b
  | |- frames _ (match ?x with _ => _ end) => destruct x
  | |- frames _ (let (_, _) := ?x in _) => destruct x
  | |- frames _ _ => solve [eauto with frames]
  end.

Ltac frames_auto := repeat frames_step.

(** ** Invariants of the interpreter *)

Section Invariants.

Context `{H : Host}.

Global Instance keeps_functions_preorder : PreOrder keeps_functions.
Proof. split; [intros st name; auto | intros a b c Hab Hbc name; auto]. Qed.

Lemma same_functions_keeps st st' :
  functions st' = functions st -> keeps_functions st st'.
Proof. intros E name. unfold registered. now rewrite E. Qed.

Lemma frames_print ev : frames keeps_functions (print ev).
Proof. intros st r st' [= _ <-]. now apply same_functions_keeps. Qed.

Lemma frames_set_variable k v : frames keeps_functions (set_variable k v).
Proof. intros st r st' [= _ <-]. now apply same_functions_keeps. Qed.

Lemma frames_set_variables vs : frames keeps_functions (set_variables vs).
Proof. intros st r st' [= _ <-]. now apply same_functions_keeps. Qed.

Lemma frames_set_function k d : frames keeps_functions (set_function k d).
Proof.
  intros st r st' [= _ <-] name. unfold registered. simpl.
  rewrite lookup_insert_is_Some. destruct (decide (k = name)); auto.
Qed.

Lemma frames_print_exception_trace n line e :
  frames keeps_functions (print_exception_trace n line e).
Proof. apply frames_print. Qed.

(** The evaluator never raises: it yields the value, or reports and yields
    [None]. *)
Lemma evaluate_expression_eq expr st :
  evaluate_expression expr st =
  match py_eval (substitute (variables st) expr) with
  | inl v => Some (Return v, st)
  | inr e => Some (Return py_None, with_output st (Diagnostic e None))
  end.
Proof.
  unfold evaluate_expression. rewrite run_bind. simpl.
  unfold try_except. destruct (py_eval _); reflexivity.
Qed.

Lemma frames_evaluate_expression expr :
  frames keeps_functions (evaluate_expression expr).
Proof.
  intros st r st'. rewrite evaluate_expression_eq.
  destruct (py_eval _); intros [= _ <-]; now apply same_functions_keeps.
Qed.

Lemma bind_parameters_total pairs st :
  exists st1, bind_parameters pairs st = Some (Return tt, st1)
              /\ functions st1 = functions st.
Proof.
  revert st. induction pairs as [|[param arg] pairs IH]; intros st; simpl.
  - eauto.
  - rewrite run_bind, evaluate_expression_eq.
    destruct (py_eval _) as [v|e]; rewrite run_bind; simpl;
      match goal with |- context [bind_parameters pairs ?s] =>
        destruct (IH s) as (st1 & -> & E) end; eauto.
Qed.

Lemma process_lines_returns fuel lines i st r st' :
  process_lines fuel lines i st = Some (r, st') -> r = Return tt.
Proof.
  revert lines i st. induction fuel as [|fuel IH]; intros lines i st; simpl.
  - discriminate.
  - destruct (length lines <=? i)%nat; [now intros [= <- _]|].
    intros Hrun. apply bind_inv in Hrun as [(e & Ht & _) | (next & st1 & _ & Hk)].
    + apply try_except_inv in Ht as [(a & _ & [=]) | (e' & st1 & _ & Hh)].
      apply bind_inv in Hh as [(e2 & [=] & _) | (a & st2 & _ & [=])].
    + destruct next; [eauto | now injection Hk as <- _].
Qed.

(** What a dispatched call does: bind the parameters, run the body, put the
    saved scope back. *)
Lemma call_function_dispatched fuel name args params body st r st' :
  functions st !! name = Some (params, body) ->
  length args = length params ->
  call_function (process_body fuel) name args st = Some (r, st') ->
  exists st1 st2,
    bind_parameters (combine params args) st = Some (Return tt, st1)
    /\ process_lines fuel body 0 st1 = Some (Return tt, st2)
    /\ r = Return tt
    /\ st' = with_variables st2 (variables st).
Proof.
  intros Hf Hlen. unfold call_function. rewrite run_bind. simpl. rewrite Hf.
  rewrite Hlen, Nat.eqb_refl. simpl. rewrite run_bind. simpl. rewrite run_bind.
  destruct (bind_parameters_total (combine params args) st) as (st1 & -> & _).
  rewrite run_bind. unfold process_body.
  destruct (process_lines fuel body 0 st1) as [[r2 st2]|] eqn:Hb; [|discriminate].
  pose proof (process_lines_returns _ _ _ _ _ _ Hb) as ->.
  intros [= <- <-]. eauto 10.
Qed.

Lemma frames_bind_parameters pairs :
  frames keeps_functions (bind_parameters pairs).
Proof.
  intros st r st' Hrun.
  destruct (bind_parameters_total pairs st) as (st1 & E & Hfun).
  rewrite E in Hrun. injection Hrun as _ <-. now apply same_functions_keeps.
Qed.

Hint Resolve frames_print frames_set_variable frames_set_variables
  frames_set_function frames_print_exception_trace
  frames_evaluate_expression frames_bind_parameters : frames.

Lemma frames_call_function process name args :
  (forall body, frames keeps_functions (process body)) ->
  frames keeps_functions (call_function process name args).
Proof. intros Hp. unfold call_function. frames_auto. Qed.

Hint Resolve frames_call_function : frames.

Lemma frames_handle_function_call process line :
  (forall body, frames keeps_functions (process body)) ->
  frames keeps_functions (handle_function_call process line).
Proof. intros Hp. unfold handle_function_call. frames_auto. Qed.

Lemma frames_handle_variable_declaration line :
  frames keeps_functions (handle_variable_declaration line).
Proof. unfold handle_variable_declaration. frames_auto. Qed.

Lemma frames_handle_function_definition lines start :
  frames keeps_functions (handle_function_definition lines start).
Proof. unfold handle_function_definition. frames_auto. Qed.

Lemma frames_handle_log line : frames keeps_functions (handle_log line).
Proof. unfold handle_log. frames_auto. Qed.

Hint Resolve frames_handle_function_call frames_handle_variable_declaration
  frames_handle_function_definition frames_handle_log : frames.

Lemma frames_statement process lines i line :
  (forall body, frames keeps_functions (process body)) ->
  frames keeps_functions (statement process lines i line).
Proof. intros Hp. unfold statement. frames_auto. Qed.

Lemma frames_process_lines fuel lines i :
  frames keeps_functions (process_lines fuel lines i).
Proof.
  revert lines i. induction fuel as [|fuel IH]; intros lines i; simpl.
  - intros st r st' [=].
  - pose proof (frames_statement (fun body => process_lines fuel body 0)) as Hs.
    frames_auto.
Qed.

End Invariants.

(** ** Fuel

    A run that ends with some fuel ends the same way with more: the fuel
    only decides whether the model gets to the end of the run. *)

Section Fuel.

Context `{H : Host}.

Lemma refines_refl {A} (m : M A) : refines m m.
Proof. intros st res E. exact E. Qed.

Lemma refines_bind {A B} (m m' : M A) (k k' : A -> M B) :
  refines m m' -> (forall a, refines (k a) (k' a)) -> refines (m ≫= k) (m' ≫= k').
Proof.
  intros Hm Hk st res. rewrite !run_bind.
  destruct (m st) as [[[a|e] st1]|] eqn:E; [| |discriminate];
    rewrite (Hm _ _ E); [apply Hk | auto].
Qed.

Lemma refines_try_except {A} (m m' : M A) (h : exn -> M A) :
  refines m m' -> refines (try_except m h) (try_except m' h).
Proof.
  intros Hm st res. unfold try_except.
  destruct (m st) as [[[a|e] st1]|] eqn:E; [| |discriminate];
    rewrite (Hm _ _ E); auto.
Qed.

Lemma refines_call_function P P' name args :
  (forall body, refines (P body) (P' body)) ->
  refines (call_function P name args) (call_function P' name args).
Proof.
  intros HP. unfold call_function.
  apply refines_bind; [apply refines_refl|]. intros st.
  destruct (functions st !! name) as [[params body]|]; [|apply refines_refl].
  destruct (negb _); [apply refines_refl|].
  apply refines_bind; [apply refines_refl|]. intros st0.
  apply refines_bind; [apply refines_refl|]. intros _.
  apply refines_bind; [apply HP|]. intros _. apply refines_refl.
Qed.

Lemma refines_statement P P' lines i line :
  (forall body, refines (P body) (P' body)) ->
  refines (statement P lines i line) (statement P' lines i line).
Proof.
  intros HP. unfold statement.
  destruct (_ || _); [apply refines_refl|].
  apply refines_bind; [|intros; apply refines_refl].
  repeat match goal with |- refines (if ?b then _ else _) _ => destruct b end;
    try apply refines_refl.
  apply refines_bind; [|intros; apply refines_refl].
  unfold handle_function_call.
  destruct (Re.re_match _ _) as [[|name [|args [|]]]|]; try apply refines_refl.
  apply refines_bind; [apply refines_refl|]. intros st.
  destruct (bool_decide _); [|apply refines_refl].
  now apply refines_call_function.
Qed.

Lemma process_lines_more_fuel fuel lines i :
  refines (process_lines fuel lines i) (process_lines (S fuel) lines i).
Proof.
  revert lines i. induction fuel as [|fuel IH]; intros lines i.
  - intros st res [=].
  - change (process_lines (S (S fuel)) lines i)
      with (if (length lines <=? i)%nat then ret tt
            else
              let line := Text.strip (nth i lines "") in
              try_except
                (statement (fun body => process_lines (S fuel) body 0) lines i line
                 ≫= fun i' => ret (Some i'))
                (fun e => print_exception_trace (Z.of_nat i) line e;; ret None)
              ≫= fun next => match next with
                             | Some i' => process_lines (S fuel) lines i'
                             | None => ret tt
                             end).
    simpl. destruct (length lines <=? i)%nat; [apply refines_refl|].
    apply refines_bind.
    + apply refines_try_except. apply refines_bind; [|intros; apply refines_refl].
      apply refines_statement. intros body. apply IH.
    + intros [i'|]; [apply IH | apply refines_refl].
Qed.

Lemma process_lines_fuel_mono fuel fuel' lines i :
  fuel <= fuel' -> refines (process_lines fuel lines i) (process_lines fuel' lines i).
Proof.
  induction 1 as [|fuel' _ IH]; [apply refines_refl|].
  intros st res E. now apply process_lines_more_fuel, IH.
Qed.

End Fuel.

(** ** Function calls: scope, arity and the function table *)

Section Calls.

Context `{H : Host}.


(** C4.  A call of a registered function with an argument count different
    from the parameter count raises [ValueError] with a message that names
    the function, and leaves the interpreter as it was: no parameter is
    bound, no body line runs, nothing is printed. *)
Theorem call_arity_mismatch fuel name args params body st :
  functions st !! name = Some (params, body) ->
  length args <> length params ->
  call_function (process_body fuel) name args st =
  Some (Raise (ValueError ("The number of parameters does not match: " +:+ name)),
        st).
Proof.
  intros Hf Hlen. unfold call_function. rewrite run_bind. simpl. rewrite Hf.
  apply Nat.eqb_neq in Hlen. now rewrite Hlen.
Qed.


End Calls.


Lemma call_arity_mismatch_witness :
  Examples.run_call 10 "f" ["1"; "2"] Examples.st_f =
  Some (Raise (ValueError "The number of parameters does not match: f"),
        Examples.st_f).
Proof.
  refine (@call_arity_mismatch SmallHost.host 10 "f" ["1"; "2"] ["x"] _
            Examples.st_f _ _).
  - vm_compute. reflexivity.
  - simpl. lia.
Defined.


(** ** The dispatcher *)

Section Dispatch.

Context `{H : Host}.

Lemma startswith_inv p s :
  Text.startswith p s = true -> exists rest, s = p +:+ rest.
Proof.
  unfold Text.startswith. revert s.
  induction p as [|c p IH]; intros s.
  - simpl. eauto.
  - destruct s as [|a s]; simpl; [discriminate|].
    destruct (ascii_dec c a) as [->|]; [|discriminate].
    intros Hp. destruct (IH _ Hp) as (rest & ->). eauto.
Qed.

(** A line with the log prefix reaches the log branch of the dispatcher, a
    line with the func prefix the definition branch. *)
Lemma log_prefix_dispatch line :
  Text.startswith "log(" line = true ->
  Text.is_empty line = false /\ Text.startswith "//" line = false
  /\ Text.startswith "var " line = false /\ Text.startswith "func " line = false.
Proof.
  intros Hp. destruct (startswith_inv _ _ Hp) as (rest & ->).
  repeat split; reflexivity.
Qed.

Lemma func_prefix_dispatch line :
  Text.startswith "func " line = true ->
  Text.is_empty line = false /\ Text.startswith "//" line = false
  /\ Text.startswith "var " line = false.
Proof.
  intros Hp. destruct (startswith_inv _ _ Hp) as (rest & ->).
  repeat split; reflexivity.
Qed.

(** One round of the loop of [process_lines]. *)
Lemma process_lines_step fuel lines i st :
  i < length lines ->
  process_lines (S fuel) lines i st =
  let line := Text.strip (nth i lines "") in
  match statement (process_body fuel) lines i line st with
  | None => None
  | Some (Return i', st1) => process_lines fuel lines i' st1
  | Some (Raise e, st1) =>
      Some (Return tt,
            with_output st1 (Diagnostic e (Some ((Z.of_nat i + 1)%Z, Text.strip line))))
  end.
Proof.
  intros Hi. simpl.
  destruct (Nat.leb_spec (length lines) i) as [Hle|_]; [lia|].
  rewrite run_bind. unfold try_except. rewrite run_bind.
  change (fun body => process_lines fuel body 0) with (process_body fuel).
  destruct (statement _ _ _ _ _) as [[[i'|e] st1]|]; try reflexivity.
  rewrite run_bind. unfold print_exception_trace.
  destruct (Z.leb_spec 0 (Z.of_nat i)) as [_|Hneg]; [reflexivity | lia].
Qed.

(** The handler of [process_lines]: a fault of the statement at index [i]
    ends the loop, with the diagnostic printed. *)
Lemma process_lines_fault fuel lines i st e st1 :
  i < length lines ->
  statement (process_body fuel) lines i (Text.strip (nth i lines "")) st
  = Some (Raise e, st1) ->
  process_lines (S fuel) lines i st =
  Some (Return tt,
        with_output st1
          (Diagnostic e (Some ((Z.of_nat i + 1)%Z,
                               Text.strip (Text.strip (nth i lines "")))))).
Proof.
  intros Hi Hs. rewrite process_lines_step by assumption. simpl. now rewrite Hs.
Qed.

(** C5.  When the statement at index [i] faults, the dispatcher ends there:
    what it leaves is the interpreter at the fault with the diagnostic
    printed, so no later line of the sequence has run.  A line that is not
    blank, not a comment and fits none of the dispatch patterns faults with
    [SyntaxError] carrying the line. *)
Theorem fault_aborts_sequence fuel lines i st :
  i < length lines ->
  let line := Text.strip (nth i lines "") in
  (forall e st1,
      statement (process_body fuel) lines i line st = Some (Raise e, st1) ->
      process_lines (S fuel) lines i st =
      Some (Return tt,
            with_output st1 (Diagnostic e (Some ((Z.of_nat i + 1)%Z, Text.strip line)))))
  /\ (Text.is_empty line = false ->
      Text.startswith "//" line = false ->
      Text.startswith "var " line = false ->
      Text.startswith "func " line = false ->
      Text.startswith "log(" line = false ->
      Re.re_match Re.statement_call_pattern line = None ->
      statement (process_body fuel) lines i line st =
      Some (Raise (SyntaxError ("Unknown statement: " +:+ line)), st)).
Proof.
  intros Hi line. split.
  - intros e st1 Hs. now apply process_lines_fault.
  - intros He Hc Hv Hf Hl Hm. unfold statement.
    rewrite He, Hc, Hv, Hf, Hl, Hm. reflexivity.
Qed.


(** What the evaluator does with an expression the host rejects, and what
    the declaration handler makes of it. *)
Lemma handle_variable_declaration_failed line name expr st e :
  Re.re_match Re.var_pattern line = Some [name; expr] ->
  py_eval (substitute (variables st) expr) = inr e ->
  handle_variable_declaration line st =
  Some (Return tt,
        {| variables := Dict.set name py_None (variables st);
           functions := functions st;
           stdout := stdout st ++ [Diagnostic e None] |}).
Proof.
  intros Hm He. unfold handle_variable_declaration, try_except.
  rewrite Hm, run_bind, evaluate_expression_eq, He. reflexivity.
Qed.

(** C6, amended.  When the host rejects the substituted text, the evaluator
    prints the diagnostic and yields [None]; it does not raise for any
    caller.  The declaration handler is no exception: [var x = <expr>] with a
    failing expression prints that one diagnostic, binds [x] to [None] and
    returns. *)
Theorem failed_evaluation_yields_none expr st e :
  py_eval (substitute (variables st) expr) = inr e ->
  evaluate_expression expr st =
  Some (Return py_None, with_output st (Diagnostic e None))
  /\ (forall line name,
        Re.re_match Re.var_pattern line = Some [name; expr] ->
        handle_variable_declaration line st =
        Some (Return tt,
              {| variables := Dict.set name py_None (variables st);
                 functions := functions st;
                 stdout := stdout st ++ [Diagnostic e None] |})).
Proof.
  intros He. split.
  - now rewrite evaluate_expression_eq, He.
  - intros line name Hm. now apply handle_variable_declaration_failed with expr.
Qed.

Lemma execute_returns fuel code st r st' :
  execute fuel code st = Some (r, st') -> r = Return tt.
Proof.
  unfold execute. intros Hrun.
  apply try_except_inv in Hrun as [(a & _ & ->) | (e & st1 & _ & Hh)].
  - now destruct a.
  - now injection Hh as <- _.
Qed.

(** C9.  When the scan of the top level is over, [execute] looks for [main]
    in the function table.  If it is there, the announcement is printed and
    [main] is called with no arguments (a fault of that call is reported by
    [execute]); if it is not there, the run is over, with nothing more
    printed.  Either way [execute] does not raise. *)
Theorem execute_calls_main fuel code st r1 st1 :
  process_lines fuel (Text.split Text.newline code) 0 st = Some (r1, st1) ->
  (registered "main" st1 ->
   execute fuel code st =
   try_except (call_function (process_body fuel) "main" [])
     (fun e => print_exception_trace (-1) "Exceptions to code execution" e)
     (with_output st1
        (Printed ("Locate the main function and start executing"
                  +:+ String Text.newline ""))))
  /\ (~ registered "main" st1 -> execute fuel code st = Some (Return tt, st1))
  /\ (forall r st', execute fuel code st = Some (r, st') -> r = Return tt).
Proof.
  intros Hscan. pose proof (process_lines_returns _ _ _ _ _ _ Hscan) as ->.
  repeat split.
  - intros Hmain. unfold execute, try_except.
    rewrite run_bind, Hscan, run_bind. simpl.
    rewrite bool_decide_eq_true_2 by exact Hmain.
    rewrite run_bind. reflexivity.
  - intros Hmain. unfold execute, try_except.
    rewrite run_bind, Hscan, run_bind. simpl.
    rewrite bool_decide_eq_false_2 by exact Hmain. reflexivity.
  - intros r st'. apply execute_returns.
Qed.

End Dispatch.

(** ** Stripping *)

Section Stripping.

Variable p : ascii -> bool.

Lemma lstrip_by_all s : Text.all_chars p s = true -> Text.lstrip_by p s = "".
Proof.
  induction s as [|c s IH]; simpl; [reflexivity|].
  intros [Hc Hs]%andb_prop. rewrite Hc. auto.
Qed.

Lemma lstrip_by_app pre s :
  Text.all_chars p pre = true -> Text.lstrip_by p (pre +:+ s) = Text.lstrip_by p s.
Proof.
  induction pre as [|c pre IH]; simpl; [reflexivity|].
  intros [Hc Hs]%andb_prop. rewrite Hc. auto.
Qed.

Lemma rstrip_by_all s : Text.all_chars p s = true -> Text.rstrip_by p s = "".
Proof.
  induction s as [|c s IH]; simpl; [reflexivity|].
  intros [Hc Hs]%andb_prop. rewrite (IH Hs), Hc. reflexivity.
Qed.

Lemma rstrip_by_app s post :
  Text.all_chars p post = true -> Text.rstrip_by p (s +:+ post) = Text.rstrip_by p s.
Proof.
  intros Hpost. induction s as [|c s IH]; simpl.
  - now apply rstrip_by_all.
  - now rewrite IH.
Qed.

Lemma last_char_none s : Text.last_char s = None -> s = "".
Proof.
  destruct s as [|c s]; simpl; [reflexivity|].
  destruct (Text.last_char s); discriminate.
Qed.

Lemma rstrip_by_clean s :
  match Text.last_char s with Some c => p c = false | None => True end ->
  Text.rstrip_by p s = s.
Proof.
  induction s as [|c s IH]; simpl; [reflexivity|].
  destruct (Text.last_char s) as [d|] eqn:Hl.
  - intros Hd. rewrite (IH Hd).
    destruct s; [discriminate|]. simpl. now rewrite andb_false_r.
  - intros Hc. rewrite (last_char_none _ Hl). simpl. now rewrite Hc.
Qed.

(** Stripping takes off runs of [p]-characters at both ends and stops at
    the first character of another kind. *)
Lemma strip_by_spec pre mid post :
  Text.all_chars p pre = true ->
  Text.all_chars p post = true ->
  Text.edge_free p mid = true ->
  Text.strip_by p (pre +:+ mid +:+ post) = mid.
Proof.
  intros Hpre Hpost Hmid. unfold Text.strip_by.
  rewrite lstrip_by_app by assumption.
  destruct mid as [|a mid]; simpl.
  - rewrite lstrip_by_all by assumption. reflexivity.
  - unfold Text.edge_free in Hmid. simpl in Hmid.
    destruct (Text.last_char mid) as [d|] eqn:Hl.
    + apply andb_prop in Hmid as [Ha Hd].
      apply negb_true_iff in Ha, Hd. rewrite Ha.
      change (String a (mid +:+ post)) with (String a mid +:+ post).
      rewrite rstrip_by_app by assumption.
      apply rstrip_by_clean. simpl. now rewrite Hl.
    + apply andb_prop in Hmid as [Ha _].
      apply negb_true_iff in Ha. rewrite Ha.
      change (String a (mid +:+ post)) with (String a mid +:+ post).
      rewrite rstrip_by_app by assumption.
      apply rstrip_by_clean. simpl. now rewrite Hl.
Qed.

End Stripping.

(** ** Function definitions and log statements *)

Section Handlers.

Context `{H : Host}.

(** The loop of the source and the counter of the specification agree: the
    loop stops at the first line after which the counter is 0. *)
Lemma extract_body_stops pre term post c i body :
  (0 < c)%Z ->
  (forall k, k <= length pre -> (c + Spec.brace_delta (take k pre))%Z <> 0%Z) ->
  (c + Spec.brace_delta (pre ++ [term]))%Z = 0%Z ->
  extract_body (pre ++ term :: post) i c body =
  (i + length pre, body ++ map Text.strip pre).
Proof.
  revert c i body. induction pre as [|l pre IH]; intros c i body Hc Hk Hend.
  - simpl in *. unfold Spec.opening, Spec.closing in Hend.
    rewrite Nat.add_0_r, app_nil_r.
    destruct (Text.contains "{" _), (Text.contains "}" _); try lia;
      destruct (Z.eqb_spec (c + 1 - 1) 0); destruct (Z.eqb_spec (c - 1) 0);
      try reflexivity; lia.
  - assert (H1 := Hk 1 ltac:(simpl; lia)).
    assert (Hrest : forall d, (d = c + (Spec.opening l - Spec.closing l))%Z ->
              extract_body (pre ++ term :: post) (S i) d (body ++ [Text.strip l]) =
              (i + length (l :: pre), body ++ map Text.strip (l :: pre))).
    { intros d ->. rewrite IH.
      - simpl. rewrite <- app_assoc. f_equal. lia.
      - simpl in H1. unfold Spec.opening, Spec.closing in *.
        destruct (Text.contains "{" _), (Text.contains "}" _); lia.
      - intros k Hle. specialize (Hk (S k) ltac:(simpl; lia)). simpl in Hk. lia.
      - simpl in Hend. lia. }
    simpl in H1. simpl extract_body.
    unfold Spec.opening, Spec.closing in *.
    destruct (Text.contains "{" _), (Text.contains "}" _).
    + destruct (Z.eqb_spec (c + 1 - 1) 0); [lia|]. apply Hrest. lia.
    + apply Hrest. lia.
    + destruct (Z.eqb_spec (c - 1) 0); [lia|]. apply Hrest. lia.
    + apply Hrest. lia.
Qed.


(** C7, amended.  For a log statement that fits the pattern: when the
    stripped content is a bound variable, its value is printed.  Otherwise
    every double quote at either end is taken off, then every single quote
    at either end of what is left, and the rest is printed: however many
    quotes surround [text], it is [text] that is printed. *)
Theorem log_prints line content st :
  Re.re_match Re.log_pattern line = Some [content] ->
  (forall v,
      Dict.get (Text.strip content) (variables st) = Some v ->
      handle_log line st = Some (Return tt, with_output st (Printed (py_str v))))
  /\ (Dict.get (Text.strip content) (variables st) = None ->
      forall d1 s1 text s2 d2,
        Text.strip content = d1 +:+ (s1 +:+ text +:+ s2) +:+ d2 ->
        Text.all_chars (Text.is_char Text.dquote) d1 = true ->
        Text.all_chars (Text.is_char Text.dquote) d2 = true ->
        Text.all_chars (Text.is_char Text.squote) s1 = true ->
        Text.all_chars (Text.is_char Text.squote) s2 = true ->
        Text.edge_free (Text.is_char Text.dquote) (s1 +:+ text +:+ s2) = true ->
        Text.edge_free (Text.is_char Text.squote) text = true ->
        handle_log line st = Some (Return tt, with_output st (Printed text))).
Proof.
  intros Hm. split.
  - intros v Hv. unfold handle_log. rewrite Hm, run_bind. simpl. now rewrite Hv.
  - intros Hv d1 s1 text s2 d2 E Hd1 Hd2 Hs1 Hs2 Hinner Htext.
    unfold handle_log. rewrite Hm, run_bind. simpl. rewrite Hv, E.
    unfold Text.strip_char. rewrite !strip_by_spec by assumption. reflexivity.
Qed.

(** What the code does with a fault in the body of a call.  The dispatch
    level that runs the body catches it, prints the diagnostic and drops
    the rest of the body.  The call itself, when the callee is registered
    with the right number of parameters, hands no exception to the level it
    stands in: it returns, and what it leaves is what the body left with
    the scope put back. *)
Theorem fault_stays_in_called_body fuel line name arg_list params body st :
  Re.re_match Re.call_pattern line = Some [name; arg_list] ->
  functions st !! name = Some (params, body) ->
  length (Text.split_trimmed arg_list) = length params ->
  (forall fuel' i s e s1,
      i < length body ->
      statement (process_body fuel') body i (Text.strip (nth i body "")) s
      = Some (Raise e, s1) ->
      process_lines (S fuel') body i s =
      Some (Return tt,
            with_output s1
              (Diagnostic e (Some ((Z.of_nat i + 1)%Z,
                                   Text.strip (Text.strip (nth i body "")))))))
  /\ (forall r st',
        handle_function_call (process_body fuel) line st = Some (r, st') ->
        r = Return tt
        /\ exists st1 st2,
            bind_parameters (combine params (Text.split_trimmed arg_list)) st
            = Some (Return tt, st1)
            /\ process_lines fuel body 0 st1 = Some (Return tt, st2)
            /\ st' = with_variables st2 (variables st)).
Proof.
  intros Hm Hf Hlen. split.
  - intros fuel' i s e s1. apply process_lines_fault.
  - intros r st'. unfold handle_function_call. rewrite Hm, run_bind. simpl.
    rewrite bool_decide_eq_true_2 by (rewrite Hf; eauto).
    intros Hrun.
    destruct (call_function_dispatched _ _ _ _ _ _ _ _ Hf Hlen Hrun)
      as (st1 & st2 & Hb & Hp & -> & ->).
    eauto 10.
Qed.

End Handlers.

(** ** The interpreter at work *)

Section Runs.

Import SmallHost Examples.

Lemma fault_stays_in_called_body_witness :
  @handle_function_call host (process_body 10) "f(1)" st_f
  = Some (Return tt, st_f_after)
  /\ @process_lines host 5 f_body 4 (with_function st_f "g" ([], ["log(a)"]))
     = Some (Return tt,
             with_output (with_function st_f "g" ([], ["log(a)"]))
               (Diagnostic (SyntaxError "Unknown statement: oops")
                  (Some (5%Z, "oops"))))
  /\ exists st1 st2,
      @bind_parameters host [("x", "1")] st_f = Some (Return tt, st1)
      /\ @process_lines host 10 f_body 0 st1 = Some (Return tt, st2)
      /\ st_f_after = with_variables st2 (variables st_f).
Proof.
  assert (E : @handle_function_call host (process_body 10) "f(1)" st_f
              = Some (Return tt, st_f_after)) by (vm_compute; reflexivity).
  destruct (@fault_stays_in_called_body host 10 "f(1)" "f" "1" ["x"] f_body
              st_f eq_refl eq_refl eq_refl) as [Hcaught Hreturns].
  split; [exact E|]. split.
  - refine (Hcaught 4 4 _ (SyntaxError "Unknown statement: oops") _ _ _);
      [simpl; lia | vm_compute; reflexivity].
  - exact (proj2 (Hreturns _ _ E)).
Defined.

(** C2.  The claim has a fault in a nested body caught and reported again by
    every enclosing dispatch level, each of which drops the rest of its own
    sequence; the comment on the [break] of [process_lines] says that it
    stops the program.  The code does not do that.  Here [main] calls [f]
    and the body of [f] faults: the fault is reported once, by the level
    that runs the body of [f], and the level that runs [main] reports
    nothing and goes on to its next line, which prints. *)
Lemma nested_fault_reported_once :
  output (run_program 20 nested_fault) =
  Some [announcement;
        Diagnostic (SyntaxError "Unknown statement: oops") (Some (1%Z, "oops"));
        Printed "after"].
Proof. vm_compute. reflexivity. Qed.


Lemma fault_aborts_sequence_witness :
  @process_lines host 11 top_level 5 initial =
  Some (Return tt,
        with_output initial
          (Diagnostic (SyntaxError "Unknown statement: what") (Some (6%Z, "what")))).
Proof.
  destruct (@fault_aborts_sequence host 10 top_level 5 initial
              ltac:(simpl; lia)) as [Habort Hunknown].
  exact (Habort _ _ (Hunknown eq_refl eq_refl eq_refl eq_refl eq_refl eq_refl)).
Defined.

Lemma failed_evaluation_yields_none_witness :
  @handle_variable_declaration host "var x = 1 +" initial =
  Some (Return tt, @Interp host [("x", VNone)] ∅ [Diagnostic invalid_syntax None]).
Proof.
  exact (proj2 (@failed_evaluation_yields_none host "1 +" initial invalid_syntax
                  eq_refl) "var x = 1 +" "x" eq_refl).
Defined.

(** C6, as stated, fails.  The host rejects the expression, and the
    declaration does not fault: it returns, with [x] bound to [None]. *)
Lemma failing_declaration_binds_none :
  eval "1 +" = inr invalid_syntax
  /\ @handle_variable_declaration host "var x = 1 +" initial
     = Some (Return tt, @Interp host [("x", VNone)] ∅ [Diagnostic invalid_syntax None]).
Proof. split; vm_compute; reflexivity. Qed.

Lemma log_prints_witness :
  @handle_log host "log(''a'')" initial =
  Some (Return tt, with_output initial (Printed "a")).
Proof.
  exact (proj2 (@log_prints host "log(''a'')" "''a''" initial eq_refl) eq_refl
           "" "''" "a" "''" "" eq_refl eq_refl eq_refl eq_refl eq_refl eq_refl eq_refl).
Defined.

(** C7, as stated, fails.  The content has two layers of quotes.  Taking one
    layer off leaves a quoted text; the handler prints the bare text. *)
Lemma log_strips_every_layer :
  Re.re_match Re.log_pattern "log(''a'')" = Some ["''a''"]
  /\ Spec.strip_one_layer "''a''" = "'a'"
  /\ output (@handle_log host "log(''a'')" initial) = Some [Printed "a"].
Proof. repeat split; vm_compute; reflexivity. Qed.


Lemma execute_calls_main_witness :
  @execute host 20 (source main_only) initial =
  Some (Return tt,
        @Interp host [] {[ "main" := ([], ["log('hi')"]) ]}
          [announcement; Printed "hi"]).
Proof.
  rewrite (proj1 (@execute_calls_main host 20 (source main_only) initial (Return tt)
                    (with_function initial "main" ([], ["log('hi')"]))
                    ltac:(vm_compute; reflexivity))
             ltac:(vm_compute; eauto)).
  vm_compute. reflexivity.
Defined.

End Runs.

(** ** Declarations *)

Section Declarations.

Context `{H : Host}.

Lemma dict_get_set_eq {V} k (v : V) d : Dict.get k (Dict.set k v d) = Some v.
Proof.
  induction d as [|[k' v'] d IH]; simpl.
  - now rewrite String.eqb_refl.
  - destruct (String.eqb k' k) eqn:E; simpl; now rewrite E.
Qed.

Lemma dict_get_set_ne {V} k k0 (v : V) d :
  k0 <> k -> Dict.get k0 (Dict.set k v d) = Dict.get k0 d.
Proof.
  intros Hne. induction d as [|[k' v'] d IH]; simpl.
  - destruct (String.eqb_spec k k0); [congruence | reflexivity].
  - destruct (String.eqb_spec k' k) as [->|Hk]; simpl.
    + destruct (String.eqb_spec k k0); [congruence | reflexivity].
    + now rewrite IH.
Qed.

Lemma dict_keys_set {V} k (v : V) d :
  keys (Dict.set k v d) =
  match Dict.get k d with
  | Some _ => keys d
  | None => keys d ++ [k]
  end.
Proof.
  unfold keys. induction d as [|[k' v'] d IH]; simpl; [reflexivity|].
  destruct (String.eqb k' k); simpl; [reflexivity|].
  rewrite IH. now destruct (Dict.get k d).
Qed.

Lemma var_prefix_dispatch line :
  Text.startswith "var " line = true ->
  Text.is_empty line = false /\ Text.startswith "//" line = false.
Proof.
  intros Hp. destruct (startswith_inv _ _ Hp) as (rest & ->).
  split; reflexivity.
Qed.



(** X3.  A line with the declaration prefix that does not fit the
    declaration pattern is reported twice, first by the handler without a
    line number and then by the dispatcher with it; nothing is bound, and
    the dispatcher ends there. *)
Theorem malformed_declaration_reported_twice fuel lines i st :
  i < length lines ->
  let line := Text.strip (nth i lines "") in
  let e := SyntaxError ("Variable declaration syntax error: " +:+ line) in
  Text.startswith "var " line = true ->
  Re.re_match Re.var_pattern line = None ->
  process_lines (S fuel) lines i st =
  Some (Return tt,
        with_output (with_output st (Diagnostic e None))
          (Diagnostic e (Some ((Z.of_nat i + 1)%Z, Text.strip line)))).
Proof.
  intros Hi line e Hp Hm.
  apply process_lines_fault; [assumption|]. fold line.
  destruct (var_prefix_dispatch _ Hp) as (He & Hc).
  unfold statement. rewrite He, Hc, Hp. simpl.
  rewrite run_bind, run_bind.
  unfold handle_variable_declaration, try_except. rewrite Hm. reflexivity.
Qed.

(** A statement that returns lets the loop go on at the index it gives. *)
Lemma process_lines_next fuel lines i st i' st1 :
  i < length lines ->
  statement (process_body fuel) lines i (Text.strip (nth i lines "")) st
  = Some (Return i', st1) ->
  process_lines (S fuel) lines i st = process_lines fuel lines i' st1.
Proof.
  intros Hi Hs. rewrite process_lines_step by assumption. cbv zeta. now rewrite Hs.
Qed.


End Declarations.

(** ** Definitions of functions, in general *)

Section Definitions.

Context `{H : Host}.

(** Whatever the braces do, the loop returns an index between the line after
    the header and the end of the lines, and the body is the stripped lines
    passed on the way. *)
Lemma extract_body_shape rest i c body :
  exists k, k <= length rest
            /\ extract_body rest i c body = (i + k, body ++ map Text.strip (take k rest)).
Proof.
  revert i c body. induction rest as [|l rest IH]; intros i c body.
  - exists 0. simpl. rewrite Nat.add_0_r, app_nil_r. auto.
  - assert (Hgo : forall d, exists k, k <= length (l :: rest)
              /\ extract_body rest (S i) d (body ++ [Text.strip l])
                 = (i + k, body ++ map Text.strip (take k (l :: rest)))).
    { intros d. destruct (IH (S i) d (body ++ [Text.strip l])) as (k & Hk & ->).
      exists (S k). simpl. rewrite <- app_assoc. split; [lia|].
      f_equal. lia. }
    assert (Hstop : exists k, k <= length (l :: rest)
              /\ (i, body) = (i + k, body ++ map Text.strip (take k (l :: rest)))).
    { exists 0. simpl. rewrite Nat.add_0_r, app_nil_r. split; [lia | reflexivity]. }
    simpl extract_body.
    destruct (Text.contains "{" _), (Text.contains "}" _);
      try destruct (Z.eqb _ 0); auto.
Qed.

(** The loop runs to the end of the lines when the counter of the
    specification never comes down to 0. *)
Lemma extract_body_runs_out rest c i body :
  (0 < c)%Z ->
  (forall k, k <= length rest -> (c + Spec.brace_delta (take k rest))%Z <> 0%Z) ->
  extract_body rest i c body = (i + length rest, body ++ map Text.strip rest).
Proof.
  revert c i body. induction rest as [|l rest IH]; intros c i body Hc Hk.
  - simpl. now rewrite Nat.add_0_r, app_nil_r.
  - assert (H1 := Hk 1 ltac:(simpl; lia)).
    assert (Hrest : forall d, (d = c + (Spec.opening l - Spec.closing l))%Z ->
              extract_body rest (S i) d (body ++ [Text.strip l]) =
              (i + length (l :: rest), body ++ map Text.strip (l :: rest))).
    { intros d ->. rewrite IH.
      - simpl. rewrite <- app_assoc. f_equal. lia.
      - simpl in H1. unfold Spec.opening, Spec.closing in *.
        destruct (Text.contains "{" _), (Text.contains "}" _); lia.
      - intros k Hle. specialize (Hk (S k) ltac:(simpl; lia)). simpl in Hk. lia. }
    simpl in H1. simpl extract_body.
    unfold Spec.opening, Spec.closing in *.
    destruct (Text.contains "{" _), (Text.contains "}" _).
    + destruct (Z.eqb_spec (c + 1 - 1) 0); [lia|]. apply Hrest. lia.
    + apply Hrest. lia.
    + destruct (Z.eqb_spec (c - 1) 0); [lia|]. apply Hrest. lia.
    + apply Hrest. lia.
Qed.

(** X5.  Whatever follows a header that fits the pattern, the definition
    handler does not raise: it returns an index after the header and not
    beyond the end of the lines, and registers under the name the trimmed
    parameters with, as body, the stripped lines between the header and
    that index.  Variables and output stay as they are. *)
Theorem function_definition_registers lines start st name param_list :
  start < length lines ->
  Re.re_match Re.func_pattern (Text.strip (nth start lines "")) = Some [name; param_list] ->
  exists j,
    start < j <= length lines
    /\ handle_function_definition lines start st =
       Some (Return j,
             with_function st name
               (Text.split_trimmed param_list,
                map Text.strip (between lines (S start) j))).
Proof.
  intros Hs Hm. unfold handle_function_definition. rewrite Hm.
  destruct (extract_body_shape (drop (S start) lines) (S start) 1 []) as (k & Hk & ->).
  rewrite length_drop in Hk.
  exists (S start + k). split; [lia|].
  unfold between. replace (S start + k - S start) with k by lia. reflexivity.
Qed.

(** X6.  When the braces after a header never balance, the definition takes
    every remaining line as its body, and the scan is over: no diagnostic is
    printed and no later line is dispatched. *)
Theorem unbalanced_definition_takes_the_rest fuel lines start st name param_list :
  let header := Text.strip (nth start lines "") in
  start < length lines ->
  Text.startswith "func " header = true ->
  Re.re_match Re.func_pattern header = Some [name; param_list] ->
  (forall k, k <= length lines - S start ->
             Spec.brace_counter (take k (drop (S start) lines)) <> 0%Z) ->
  process_lines (S (S fuel)) lines start st =
  Some (Return tt,
        with_function st name
          (Text.split_trimmed param_list, map Text.strip (drop (S start) lines))).
Proof.
  intros header Hs Hp Hm Hk.
  rewrite (process_lines_next (S fuel) lines start st (S (length lines))
             (with_function st name
                (Text.split_trimmed param_list,
                 map Text.strip (drop (S start) lines)))); [| assumption |].
  - simpl. destruct (Nat.leb_spec (length lines) (S (length lines))); [reflexivity | lia].
  - fold header. destruct (func_prefix_dispatch _ Hp) as (He & Hc & Hv).
    unfold statement. rewrite He, Hc, Hv, Hp. simpl. rewrite run_bind.
    unfold handle_function_definition. fold header. rewrite Hm.
    rewrite (extract_body_runs_out (drop (S start) lines) 1 (S start) []).
    + rewrite length_drop.
      replace (S start + (length lines - S start)) with (length lines) by lia.
      simpl. now rewrite Nat.add_1_r.
    + lia.
    + intros k Hle. rewrite length_drop in Hle. apply Hk. lia.
Qed.

(** X7.  Every statement that returns moves the loop of the dispatcher
    forward: the index it gives is greater than the index it was given, and
    at most one past the end of the lines. *)
Theorem statement_advances process lines i line st i' st' :
  i < length lines ->
  statement process lines i line st = Some (Return i', st') ->
  i < i' <= S (length lines).
Proof.
  intros Hi. unfold statement.
  destruct (_ || _); [intros [= <- _]; lia|].
  intros Hrun.
  apply bind_inv in Hrun as [(e & _ & [=]) | (j & st1 & Hj & [= <- _])].
  assert (i <= j <= length lines); [|lia].
  repeat match type of Hj with (if ?b then _ else _) _ = _ => destruct b end.
  - apply bind_inv in Hj as [(e & _ & [=]) | (u & st2 & _ & [= <- _])]. lia.
  - unfold handle_function_definition in Hj.
    destruct (Re.re_match _ _) as [[|name [|plist [|]]]|]; try discriminate.
    destruct (extract_body_shape (drop (S i) lines) (S i) 1 []) as (k & Hk & E).
    rewrite E in Hj. rewrite length_drop in Hk.
    apply bind_inv in Hj as [(e & _ & [=]) | (u & st2 & _ & [= <- _])]. lia.
  - apply bind_inv in Hj as [(e & _ & [=]) | (u & st2 & _ & [= <- _])]. lia.
  - apply bind_inv in Hj as [(e & _ & [=]) | (u & st2 & _ & [= <- _])]. lia.
  - discriminate.
Qed.

(** A blank line or a comment is passed over. *)
Lemma skipped_line_passed fuel lines i st :
  i < length lines ->
  skipped (nth i lines "") = true ->
  process_lines (S fuel) lines i st = process_lines fuel lines (S i) st.
Proof.
  intros Hi Hs. apply process_lines_next; [assumption|].
  unfold statement. unfold skipped in Hs. cbv zeta in Hs. rewrite Hs.
  now rewrite Nat.add_1_r.
Qed.

(** X8.  A sequence of blank lines and comments does nothing: with fuel for
    one round per line and one more, the dispatcher returns and the
    interpreter is what it was. *)
Theorem blank_lines_do_nothing fuel lines i st :
  forallb skipped lines = true ->
  length lines - i < fuel ->
  process_lines fuel lines i st = Some (Return tt, st).
Proof.
  intros Hall. revert i. induction fuel as [|fuel IH]; intros i Hf; [lia|].
  destruct (Nat.lt_ge_cases i (length lines)) as [Hi|Hi].
  - rewrite skipped_line_passed; [apply IH; lia | assumption |].
    rewrite forallb_forall in Hall. apply Hall. now apply nth_In.
  - simpl. destruct (Nat.leb_spec (length lines) i); [reflexivity | lia].
Qed.

End Definitions.

(** ** The scope of the top level *)

Section TopLevelScope.

Context `{H : Host}.


End TopLevelScope.

(** ** The scope inside a call *)

Section CallScope.

Context `{H : Host}.

Lemma fst_combine {A B} (l : list A) (l' : list B) :
  length l = length l' -> map fst (combine l l') = l.
Proof.
  revert l'. induction l as [|a l IH]; intros [|b l'] Hlen; simpl in *;
    try discriminate; [reflexivity|].
  f_equal. apply IH. lia.
Qed.

(** Binding the parameters touches the parameter names only, and binds each
    of them. *)
Lemma bind_parameters_scope pairs st st1 :
  bind_parameters pairs st = Some (Return tt, st1) ->
  (forall k, ~ In k (map fst pairs) ->
             Dict.get k (variables st1) = Dict.get k (variables st))
  /\ (forall p, In p (map fst pairs) -> is_Some (Dict.get p (variables st1))).
Proof.
  revert st. induction pairs as [|[param arg] pairs IH]; intros st; simpl.
  - intros [= <-]. split; [auto | intros p []].
  - rewrite run_bind, evaluate_expression_eq.
    destruct (py_eval _) as [v|e]; rewrite run_bind; simpl; intros Hrest;
      destruct (IH _ Hrest) as [Hother Hbound]; simpl in *.
    + split.
      * intros k Hk. rewrite Hother by tauto. apply dict_get_set_ne.
        intros ->. tauto.
      * intros p [<-|Hp]; [|auto].
        destruct (in_dec string_dec param (map fst pairs)) as [Hin|Hout]; [auto|].
        rewrite Hother by assumption. rewrite dict_get_set_eq. eauto.
    + split.
      * intros k Hk. rewrite Hother by tauto. apply dict_get_set_ne.
        intros ->. tauto.
      * intros p [<-|Hp]; [|auto].
        destruct (in_dec string_dec param (map fst pairs)) as [Hin|Hout]; [auto|].
        rewrite Hother by assumption. rewrite dict_get_set_eq. eauto.
Qed.


(** X12.  The log handler never faults.  Whatever the line, it prints one
    text and returns; variables and functions are not touched. *)
Theorem log_prints_one_text line st :
  exists text, handle_log line st = Some (Return tt, with_output st (Printed text)).
Proof.
  unfold handle_log.
  destruct (Re.re_match _ _) as [[|content [|]]|]; try (eexists; reflexivity).
  rewrite run_bind. simpl.
  destruct (Dict.get _ _); eexists; reflexivity.
Qed.

(** X13.  A call statement that names a function that is not registered
    ends the sequence with one [NameError] diagnostic giving the name;
    nothing else changes. *)
Theorem unknown_function_is_reported fuel lines i st name arg_list :
  i < length lines ->
  let line := Text.strip (nth i lines "") in
  Text.is_empty line = false ->
  Text.startswith "//" line = false ->
  Text.startswith "var " line = false ->
  Text.startswith "func " line = false ->
  Text.startswith "log(" line = false ->
  is_Some (Re.re_match Re.statement_call_pattern line) ->
  Re.re_match Re.call_pattern line = Some [name; arg_list] ->
  functions st !! name = None ->
  process_lines (S fuel) lines i st =
  Some (Return tt,
        with_output st
          (Diagnostic (NameError ("Unknown function: " +:+ name))
             (Some ((Z.of_nat i + 1)%Z, Text.strip line)))).
Proof.
  intros Hi line He Hc Hv Hf Hl Hs Hm Hnone.
  apply process_lines_fault; [assumption|]. fold line.
  unfold statement. rewrite He, Hc, Hv, Hf, Hl. simpl.
  rewrite bool_decide_eq_true_2 by exact Hs.
  rewrite run_bind, run_bind. unfold handle_function_call.
  rewrite Hm, run_bind. simpl.
  rewrite bool_decide_eq_false_2 by (rewrite Hnone; intros [? ?]; discriminate).
  reflexivity.
Qed.

End CallScope.

(** ** Stripping and splitting, in general *)

Section TextFacts.

Lemma append_cons c s t : String c s +:+ t = String c (s +:+ t).
Proof. reflexivity. Qed.

Lemma append_empty_r s : s +:+ "" = s.
Proof.
  induction s as [|c s IH]; [reflexivity|]. now rewrite append_cons, IH.
Qed.

Lemma append_assoc s1 s2 s3 : (s1 +:+ s2) +:+ s3 = s1 +:+ (s2 +:+ s3).
Proof.
  induction s1 as [|c s1 IH]; [reflexivity|]. now rewrite !append_cons, IH.
Qed.

Lemma lstrip_by_first p s :
  match Text.first_char (Text.lstrip_by p s) with
  | Some c => p c = false
  | None => True
  end.
Proof.
  induction s as [|c s IH]; simpl; [exact I|].
  destruct (p c) eqn:E; [exact IH | simpl; exact E].
Qed.

Lemma rstrip_by_last p s :
  match Text.last_char (Text.rstrip_by p s) with
  | Some c => p c = false
  | None => True
  end.
Proof.
  induction s as [|c s IH]; simpl; [exact I|].
  destruct (p c) eqn:E; simpl.
  - destruct (Text.rstrip_by p s) as [|d r]; simpl; [exact I|].
    simpl in IH. now destruct (Text.last_char r).
  - destruct (Text.last_char (Text.rstrip_by p s)); [exact IH | exact E].
Qed.

Lemma rstrip_by_first p s :
  match Text.first_char (Text.rstrip_by p s) with
  | Some c => Text.first_char s = Some c
  | None => True
  end.
Proof.
  destruct s as [|c s]; simpl; [exact I|].
  now destruct (p c && Text.is_empty (Text.rstrip_by p s)).
Qed.

Lemma strip_by_edge_free p s : Text.edge_free p (Text.strip_by p s) = true.
Proof.
  unfold Text.strip_by, Text.edge_free.
  pose proof (lstrip_by_first p s) as Hf.
  pose proof (rstrip_by_first p (Text.lstrip_by p s)) as Hr.
  pose proof (rstrip_by_last p (Text.lstrip_by p s)) as Hl.
  destruct (Text.first_char (Text.rstrip_by p _)) as [a|]; [|reflexivity].
  destruct (Text.last_char (Text.rstrip_by p _)) as [b|]; [|reflexivity].
  rewrite Hr in Hf. now rewrite Hf, Hl.
Qed.

(** A stripped line has no white space at either end, and stripping it
    again gives the same line. *)
Lemma strip_is_idempotent s :
  Text.edge_free Text.is_space (Text.strip s) = true
  /\ Text.strip (Text.strip s) = Text.strip s.
Proof.
  split; [apply strip_by_edge_free|].
  unfold Text.strip at 1.
  rewrite <- (append_empty_r (Text.strip s)) at 1.
  change (Text.strip s +:+ "") with ("" +:+ Text.strip s +:+ "").
  apply strip_by_spec; [reflexivity | reflexivity | apply strip_by_edge_free].
Qed.

Lemma split_not_nil sep s : Text.split sep s <> [].
Proof.
  destruct s as [|c s]; simpl; [discriminate|].
  destruct (Ascii.eqb c sep); [discriminate|].
  destruct (Text.split sep s); discriminate.
Qed.

(** Splitting a text at a separator loses nothing and leaves the separator
    in no piece: joining the pieces with the separator gives the text
    back. *)
Lemma split_then_join sep s :
  String.concat (String sep "") (Text.split sep s) = s
  /\ Forall (fun piece => Text.contains sep piece = false) (Text.split sep s).
Proof.
  induction s as [|c s [IHj IHc]]; simpl.
  - split; [reflexivity | constructor; [reflexivity | constructor]].
  - destruct (Text.split sep s) as [|h t] eqn:E; [now apply split_not_nil in E|].
    destruct (Ascii.eqb_spec c sep) as [->|Hne].
    + split; [|constructor; [reflexivity | exact IHc]].
      change (String.concat (String sep "") ("" :: h :: t))
        with (String sep (String.concat (String sep "") (h :: t))).
      now rewrite IHj.
    + split.
      * destruct t as [|h' t'].
        -- simpl in *. now rewrite IHj.
        -- change (String.concat (String sep "") (String c h :: h' :: t'))
             with (String c (String.concat (String sep "") (h :: h' :: t'))).
           now rewrite IHj.
      * inversion IHc as [|? ? Hh Ht]; subst. constructor; [|exact Ht].
        simpl. rewrite Hh.
        destruct (Ascii.eqb_spec c sep); [contradiction | reflexivity].
Qed.

End TextFacts.
(** ** What the patterns accept *)

Section Patterns.

Import ReLoop.

Lemma run_greedy c min p s caps cur :
  Re.run (Re.Atom c (Re.Greedy min) :: p) s caps cur =
  greedy c min (fun s cur => Re.run p s caps cur) s 0 cur.
Proof. reflexivity. Qed.

Lemma run_lazy c min p s caps cur :
  Re.run (Re.Atom c (Re.Lazy min) :: p) s caps cur =
  lazy c min (fun s cur => Re.run p s caps cur) s 0 cur.
Proof. reflexivity. Qed.

Lemma push_push_text a t cur :
  push_text t (Re.push a cur) = push_text (String a t) cur.
Proof.
  destruct cur as [g|]; simpl; [|reflexivity].
  now rewrite append_assoc.
Qed.

Lemma push_text_empty cur : push_text "" cur = cur.
Proof. destruct cur as [g|]; simpl; [now rewrite append_empty_r | reflexivity]. Qed.

(** A greedy repetition takes a whole run of accepted characters when the
    rest of the pattern fits what follows the run. *)
Lemma greedy_takes_run c min k pre s n cur r :
  Text.all_chars (Re.accepts c) pre = true ->
  match Text.first_char s with Some a => Re.accepts c a = false | None => True end ->
  min <= n + String.length pre ->
  k s (push_text pre cur) = Some r ->
  greedy c min k (pre +:+ s) n cur = Some r.
Proof.
  revert n cur. induction pre as [|a pre IH]; intros n cur Hall Hs Hmin Hk.
  - rewrite push_text_empty in Hk. simpl in Hmin.
    change ("" +:+ s) with s.
    assert (Hstop : Re.guard (min <=? n)%nat (k s cur) = Some r).
    { destruct (Nat.leb_spec min n); [exact Hk | lia]. }
    destruct s as [|b s]; simpl; [exact Hstop|].
    simpl in Hs. now rewrite Hs.
  - simpl in Hall. apply andb_prop in Hall as [Ha Hall].
    rewrite append_cons. simpl. rewrite Ha.
    rewrite (IH (S n) (Re.push a cur)); [reflexivity | assumption | assumption | |].
    + simpl in Hmin. lia.
    + now rewrite push_push_text.
Qed.

Lemma closes_cons caps a s cur :
  closes caps (String a s) cur =
  if Ascii.eqb a ")" then Some (caps ++ [default "" cur]) else None.
Proof. reflexivity. Qed.

Lemma closes_empty caps cur : closes caps "" cur = None.
Proof. reflexivity. Qed.

Lemma guard_none b : Re.guard b None = None.
Proof. now destruct b. Qed.

Lemma greedy_dot_no_paren caps min s n cur :
  Text.contains ")" s = false ->
  greedy Re.Dot min (closes caps) s n cur = None.
Proof.
  revert n cur. induction s as [|a s IH]; intros n cur Hs.
  - simpl. rewrite closes_empty. apply guard_none.
  - simpl in Hs. apply orb_false_elim in Hs as [Ha Hs].
    cbn [greedy]. rewrite IH by assumption.
    rewrite closes_cons, Ha, guard_none. now destruct (Re.accepts _ _).
Qed.

Lemma greedy_dot_last_paren caps min content tail n g :
  Text.all_chars (Re.accepts Re.Dot) content = true ->
  Text.contains ")" tail = false ->
  min <= n + String.length content ->
  greedy Re.Dot min (closes caps) (content +:+ ")" +:+ tail) n (Some g)
  = Some (caps ++ [g +:+ content]).
Proof.
  revert n g. induction content as [|a content IH]; intros n g Hall Htail Hmin.
  - change ("" +:+ ")" +:+ tail) with (String ")" tail). cbn [greedy].
    rewrite greedy_dot_no_paren by assumption. simpl in Hmin.
    rewrite closes_cons.
    destruct (Nat.leb_spec min n); [|lia]. simpl. now rewrite append_empty_r.
  - cbn [Text.all_chars] in Hall. apply andb_prop in Hall as [Ha Hall].
    rewrite append_cons. cbn [greedy]. rewrite Ha.
    change (Re.push a (Some g)) with (Some (g +:+ String a "")).
    rewrite (IH (S n) (g +:+ String a "")); [| assumption | assumption |].
    + simpl. now rewrite append_assoc.
    + simpl in Hmin. lia.
Qed.

(** X16.  The log pattern takes as content everything between the opening
    parenthesis and the last closing parenthesis of the line; it fits no
    line whose only closing parenthesis, if any, comes right after the
    opening one. *)
Theorem log_pattern_accepts :
  (forall content tail,
      content <> "" ->
      Text.all_chars (Re.accepts Re.Dot) content = true ->
      Text.contains ")" tail = false ->
      Re.re_match Re.log_pattern ("log(" +:+ content +:+ ")" +:+ tail)
      = Some [content])
  /\ (forall rest,
        match rest with
        | String _ rest' => Text.contains ")" rest' = false
        | EmptyString => True
        end ->
        Re.re_match Re.log_pattern ("log(" +:+ rest) = None).
Proof.
  split.
  - intros content tail Hne Hall Htail.
    change (Re.re_match Re.log_pattern ("log(" +:+ content +:+ ")" +:+ tail))
      with (greedy Re.Dot 1 (closes []) (content +:+ ")" +:+ tail) 0 (Some "")).
    rewrite greedy_dot_last_paren; [reflexivity | assumption | assumption |].
    destruct content; [contradiction | simpl; lia].
  - intros rest Hrest.
    change (Re.re_match Re.log_pattern ("log(" +:+ rest))
      with (greedy Re.Dot 1 (closes []) rest 0 (Some "")).
    destruct rest as [|a rest]; [reflexivity|]. cbn [greedy].
    rewrite greedy_dot_no_paren by assumption. now destruct (Re.accepts _ _).
Qed.

Lemma word_xor_space a : Text.is_word a && Text.is_space a = false.
Proof. destruct a as [[] [] [] [] [] [] [] []]; reflexivity. Qed.

Lemma first_char_append s t :
  s <> "" -> Text.first_char (s +:+ t) = Text.first_char s.
Proof. destruct s; [contradiction | reflexivity]. Qed.

Lemma first_of_all p s :
  s <> "" -> Text.all_chars p s = true ->
  exists a, Text.first_char s = Some a /\ p a = true.
Proof.
  destruct s as [|a s]; [contradiction|]. simpl.
  intros _ [Ha _]%andb_prop. eauto.
Qed.

(** A run of accepted characters, possibly empty, followed by a character
    that is not accepted. *)
Lemma first_after_run p q s b t :
  Text.all_chars p s = true -> (forall a, p a = true -> q a = false) -> q b = false ->
  match Text.first_char (s +:+ String b t) with
  | Some a => q a = false
  | None => True
  end.
Proof.
  destruct s as [|a s]; simpl; [auto|].
  intros [Ha _]%andb_prop Hpq _. auto.
Qed.

Lemma space_not_word a : Text.is_space a = true -> Text.is_word a = false.
Proof.
  intros Hs. pose proof (word_xor_space a) as Hx. rewrite Hs in Hx.
  now rewrite andb_true_r in Hx.
Qed.

Lemma word_not_space a : Text.is_word a = true -> Text.is_space a = false.
Proof.
  intros Hw. pose proof (word_xor_space a) as Hx. now rewrite Hw in Hx.
Qed.

(** X17.  The call pattern reads a line that is a name, an opening
    parenthesis, a text and a closing parenthesis as the call of that name:
    the first group is the name and the second everything up to the last
    closing parenthesis of the line. *)
Theorem call_pattern_accepts name args tail :
  name <> "" ->
  Text.all_chars Text.is_word name = true ->
  Text.all_chars (Re.accepts Re.Dot) args = true ->
  Text.contains ")" tail = false ->
  Re.re_match Re.call_pattern (name +:+ "(" +:+ args +:+ ")" +:+ tail)
  = Some [name; args].
Proof.
  intros Hne Hname Hargs Htail.
  change (Re.re_match Re.call_pattern (name +:+ "(" +:+ args +:+ ")" +:+ tail))
    with (greedy Re.Word 1
            (fun s cur => Re.run (Re.GroupEnd :: Re.lit "("
                                    ++ [Re.GroupStart; Re.star Re.Dot; Re.GroupEnd]
                                    ++ Re.lit ")") s [] cur)
            (name +:+ String "(" (args +:+ ")" +:+ tail)) 0 (Some "")).
  apply greedy_takes_run.
  - exact Hname.
  - reflexivity.
  - destruct name; [contradiction | simpl; lia].
  - change (greedy Re.Dot 0 (closes [name]) (args +:+ ")" +:+ tail) 0 (Some "")
            = Some [name; args]).
    rewrite greedy_dot_last_paren; [reflexivity | assumption | assumption | lia].
Qed.

(** A greedy repetition finds a match whenever the rest of the pattern fits
    after some run of accepted characters. *)
Lemma greedy_finds c min k pre s n cur :
  Text.all_chars (Re.accepts c) pre = true ->
  min <= n ->
  is_Some (k s (push_text pre cur)) ->
  is_Some (greedy c min k (pre +:+ s) n cur).
Proof.
  revert n cur. induction pre as [|a pre IH]; intros n cur Hall Hmin Hk.
  - rewrite push_text_empty in Hk. change ("" +:+ s) with s.
    assert (Hstop : is_Some (Re.guard (min <=? n)%nat (k s cur))).
    { destruct (Nat.leb_spec min n); [exact Hk | lia]. }
    destruct s as [|b s]; cbn [greedy]; [exact Hstop|].
    destruct (Re.accepts c b); [|exact Hstop].
    destruct (greedy c min k s (S n) (Re.push b cur)); [eauto | exact Hstop].
  - cbn [Text.all_chars] in Hall. apply andb_prop in Hall as [Ha Hall].
    rewrite append_cons. cbn [greedy]. rewrite Ha.
    destruct (IH (S n) (Re.push a cur) Hall ltac:(lia)) as [r ->];
      [now rewrite push_push_text | simpl; eauto].
Qed.

(** X18.  The test of the dispatcher for a call statement accepts every
    line that has an opening parenthesis and, somewhere after it, a closing
    one. *)
Theorem statement_call_pattern_accepts before inside after :
  Text.all_chars (Re.accepts Re.Dot) before = true ->
  Text.all_chars (Re.accepts Re.Dot) inside = true ->
  is_Some (Re.re_match Re.statement_call_pattern
             (before +:+ "(" +:+ inside +:+ ")" +:+ after)).
Proof.
  intros Hb Hi.
  change (Re.re_match Re.statement_call_pattern
            (before +:+ "(" +:+ inside +:+ ")" +:+ after))
    with (greedy Re.Dot 0
            (fun s cur => Re.run (Re.lit "(" ++ [Re.star Re.Dot] ++ Re.lit ")") s [] cur)
            (before +:+ String "(" (inside +:+ ")" +:+ after)) 0 None).
  apply greedy_finds; [exact Hb | lia |].
  change (is_Some (greedy Re.Dot 0
                     (fun s cur => Re.run (Re.lit ")") s [] cur)
                     (inside +:+ String ")" after) 0 None)).
  apply greedy_finds; [exact Hi | lia |]. simpl. eauto.
Qed.

(** X19.  The declaration pattern reads a line made of the word var, white
    space, a name, an equals sign with white space or none around it, and
    an expression that does not begin with white space: the groups are the
    name and the expression. *)
Theorem var_pattern_accepts ws1 name ws2 ws3 expr :
  ws1 <> "" -> Text.all_chars Text.is_space ws1 = true ->
  name <> "" -> Text.all_chars Text.is_word name = true ->
  Text.all_chars Text.is_space ws2 = true ->
  Text.all_chars Text.is_space ws3 = true ->
  Text.all_chars (Re.accepts Re.Dot) expr = true ->
  match Text.first_char expr with Some a => Text.is_space a = false | None => True end ->
  Re.re_match Re.var_pattern
    ("var" +:+ ws1 +:+ name +:+ ws2 +:+ "=" +:+ ws3 +:+ expr)
  = Some [name; expr].
Proof.
  intros Hw1 Hs1 Hn Hname Hs2 Hs3 Hexpr Hfirst.
  change (Re.re_match Re.var_pattern
            ("var" +:+ ws1 +:+ name +:+ ws2 +:+ "=" +:+ ws3 +:+ expr))
    with (greedy Re.Space 1
            (fun s cur =>
               Re.run ([Re.GroupStart; Re.plus Re.Word; Re.GroupEnd; Re.star Re.Space]
                         ++ Re.lit "="
                         ++ [Re.star Re.Space; Re.GroupStart; Re.star Re.Dot; Re.GroupEnd])
                 s [] cur)
            (ws1 +:+ name +:+ ws2 +:+ String "=" (ws3 +:+ expr)) 0 None).
  apply greedy_takes_run; [exact Hs1 | | destruct ws1; [contradiction | simpl; lia] |].
  { rewrite first_char_append by assumption.
    destruct (first_of_all _ _ Hn Hname) as (a & -> & Ha).
    now apply word_not_space. }
  change (greedy Re.Word 1
            (fun s cur =>
               Re.run ([Re.GroupEnd; Re.star Re.Space] ++ Re.lit "="
                         ++ [Re.star Re.Space; Re.GroupStart; Re.star Re.Dot; Re.GroupEnd])
                 s [] cur)
            (name +:+ ws2 +:+ String "=" (ws3 +:+ expr)) 0 (Some "")
          = Some [name; expr]).
  apply greedy_takes_run; [exact Hname | | destruct name; [contradiction | simpl; lia] |].
  { apply (first_after_run Text.is_space); [exact Hs2 | | reflexivity].
    intros a. apply space_not_word. }
  change (greedy Re.Space 0
            (fun s cur =>
               Re.run (Re.lit "="
                         ++ [Re.star Re.Space; Re.GroupStart; Re.star Re.Dot; Re.GroupEnd])
                 s [name] cur)
            (ws2 +:+ String "=" (ws3 +:+ expr)) 0 None
          = Some [name; expr]).
  apply greedy_takes_run; [exact Hs2 | reflexivity | lia |].
  change (greedy Re.Space 0
            (fun s cur => Re.run [Re.GroupStart; Re.star Re.Dot; Re.GroupEnd] s [name] cur)
            (ws3 +:+ expr) 0 None
          = Some [name; expr]).
  apply greedy_takes_run; [exact Hs3 | exact Hfirst | lia |].
  change (greedy Re.Dot 0 (fun s cur => Re.run [Re.GroupEnd] s [name] cur)
            expr 0 (Some "")
          = Some [name; expr]).
  rewrite <- (append_empty_r expr) at 1.
  apply greedy_takes_run; [exact Hexpr | exact I | lia | reflexivity].
Qed.

(** A lazy repetition of dots stops at the first closing parenthesis when
    the rest of the pattern begins with one and fits there. *)
Lemma lazy_dot_first_paren k params rest n cur r :
  (forall a s c, Ascii.eqb a ")" = false -> k (String a s) c = None) ->
  Text.all_chars (Re.accepts Re.Dot) params = true ->
  Text.contains ")" params = false ->
  k (String ")" rest) (push_text params cur) = Some r ->
  lazy Re.Dot 0 k (params +:+ String ")" rest) n cur = Some r.
Proof.
  intros Hfail. revert n cur.
  induction params as [|a params IH]; intros n cur Hall Hno Hk.
  - rewrite push_text_empty in Hk. change ("" +:+ String ")" rest) with (String ")" rest).
    cbn [lazy]. now rewrite Hk.
  - cbn [Text.all_chars] in Hall. apply andb_prop in Hall as [Ha Hall].
    simpl in Hno. apply orb_false_elim in Hno as [Hne Hno].
    rewrite append_cons. cbn [lazy]. rewrite Ha, Hfail by assumption.
    simpl. apply IH; [assumption | assumption |]. now rewrite push_push_text.
Qed.

(** X20.  The definition pattern reads a header made of the word func,
    white space, a name, a parameter text in parentheses that holds no
    closing parenthesis, optional white space and an opening brace: the
    groups are the name and the parameter text, whatever follows the
    brace. *)
Theorem func_pattern_accepts ws1 name params ws2 tail :
  ws1 <> "" -> Text.all_chars Text.is_space ws1 = true ->
  name <> "" -> Text.all_chars Text.is_word name = true ->
  Text.all_chars (Re.accepts Re.Dot) params = true ->
  Text.contains ")" params = false ->
  Text.all_chars Text.is_space ws2 = true ->
  Re.re_match Re.func_pattern
    ("func" +:+ ws1 +:+ name +:+ "(" +:+ params +:+ ")" +:+ ws2 +:+ "{" +:+ tail)
  = Some [name; params].
Proof.
  intros Hw1 Hs1 Hn Hname Hparams Hno Hs2.
  change (Re.re_match Re.func_pattern
            ("func" +:+ ws1 +:+ name +:+ "(" +:+ params +:+ ")" +:+ ws2 +:+ "{" +:+ tail))
    with (greedy Re.Space 1
            (fun s cur =>
               Re.run ([Re.GroupStart; Re.plus Re.Word; Re.GroupEnd] ++ Re.lit "("
                         ++ [Re.GroupStart; Re.lazy_star Re.Dot; Re.GroupEnd]
                         ++ Re.lit ")" ++ [Re.star Re.Space] ++ Re.lit "{")
                 s [] cur)
            (ws1 +:+ name +:+ String "(" (params +:+ String ")" (ws2 +:+ String "{" tail)))
            0 None).
  apply greedy_takes_run; [exact Hs1 | | destruct ws1; [contradiction | simpl; lia] |].
  { rewrite first_char_append by assumption.
    destruct (first_of_all _ _ Hn Hname) as (a & -> & Ha).
    now apply word_not_space. }
  change (greedy Re.Word 1
            (fun s cur =>
               Re.run ([Re.GroupEnd] ++ Re.lit "("
                         ++ [Re.GroupStart; Re.lazy_star Re.Dot; Re.GroupEnd]
                         ++ Re.lit ")" ++ [Re.star Re.Space] ++ Re.lit "{")
                 s [] cur)
            (name +:+ String "(" (params +:+ String ")" (ws2 +:+ String "{" tail)))
            0 (Some "")
          = Some [name; params]).
  apply greedy_takes_run;
    [exact Hname | reflexivity | destruct name; [contradiction | simpl; lia] |].
  change (lazy Re.Dot 0
            (fun s cur =>
               Re.run ([Re.GroupEnd] ++ Re.lit ")" ++ [Re.star Re.Space] ++ Re.lit "{")
                 s [name] cur)
            (params +:+ String ")" (ws2 +:+ String "{" tail)) 0 (Some "")
          = Some [name; params]).
  apply lazy_dot_first_paren; [| exact Hparams | exact Hno |].
  { intros a s c Ha. simpl. now rewrite Ha. }
  change (greedy Re.Space 0 (fun s cur => Re.run (Re.lit "{") s [name; params] cur)
            (ws2 +:+ String "{" tail) 0 None
          = Some [name; params]).
  apply greedy_takes_run; [exact Hs2 | reflexivity | lia | reflexivity].
Qed.

End Patterns.

(** ** Substitution *)

Section Substitution.

Context `{H : Host}.

Lemma replace_from_absent c old new s :
  Text.contains c s = false ->
  Text.replace_from (String c old) new 0 s = s.
Proof.
  induction s as [|a s IH]; simpl; [reflexivity|].
  intros [Ha Hs]%orb_false_elim.
  destruct (ascii_dec c a) as [->|_]; [now rewrite Ascii.eqb_refl in Ha|].
  now rewrite IH.
Qed.

(** X21.  An expression in which the first character of no variable name
    occurs goes to the host evaluator as it is written. *)
Theorem substitute_leaves_unrelated_text vars expr :
  Forall (fun kv => match Text.first_char (fst kv) with
                    | Some c => Text.contains c expr = false
                    | None => False
                    end) vars ->
  substitute vars expr = expr.
Proof.
  unfold substitute. induction 1 as [|[k v] vars Hk _ IH]; simpl; [reflexivity|].
  destruct k as [|c k]; simpl in Hk; [contradiction|].
  unfold Text.replace. now rewrite replace_from_absent.
Qed.

Lemma replace_from_skip old new t rest :
  old <> "" ->
  Text.replace_from old new (String.length t) (t +:+ rest)
  = Text.replace_from old new 0 rest.
Proof.
  intros Hne. induction t as [|a t IH]; [reflexivity|].
  rewrite append_cons. simpl. exact IH.
Qed.

Lemma prefix_append s t : String.prefix s (s +:+ t) = true.
Proof.
  induction s as [|a s IH]; [now destruct t|].
  rewrite append_cons. simpl. now destruct (ascii_dec a a).
Qed.

(** Replacement at the front of a text: the new text takes the place of
    the old one and the replacement goes on behind it. *)
Lemma replace_at_front old new rest :
  old <> "" ->
  Text.replace old new (old +:+ rest) = new +:+ Text.replace old new rest.
Proof.
  intros Hne. unfold Text.replace.
  destruct old as [|c old]; [contradiction|].
  rewrite append_cons.
  change (Text.replace_from (String c old) new 0 (String c (old +:+ rest)))
    with (if String.prefix (String c old) (String c (old +:+ rest))
          then new +:+ Text.replace_from (String c old) new
                         (String.length (String c old) - 1) (old +:+ rest)
          else String c (Text.replace_from (String c old) new 0 (old +:+ rest))).
  rewrite <- append_cons, prefix_append.
  replace (String.length (String c old) - 1) with (String.length old)
    by (simpl; lia).
  now rewrite replace_from_skip.
Qed.

(** X23.  The pieces of a parameter list or an argument list are never
    empty and carry no white space at either end. *)
Theorem split_trimmed_pieces s :
  Forall (fun piece => piece <> "" /\ Text.edge_free Text.is_space piece = true)
    (Text.split_trimmed s).
Proof.
  unfold Text.split_trimmed. apply List.Forall_forall. intros piece Hin.
  apply filter_In in Hin as [Hin Hne].
  apply in_map_iff in Hin as (raw & <- & _). split.
  - intros E. now rewrite E in Hne.
  - apply strip_by_edge_free.
Qed.

End Substitution.

(** ** The text operations inside the interpreter *)

Section TextInUse.

Context `{H : Host}.

(** X14.  The line shown in a diagnostic of the dispatcher is the line as
    it was dispatched, stripped once: stripping it again for the printing
    changes nothing. *)
Theorem diagnostic_shows_dispatched_line fuel lines i st e st1 :
  i < length lines ->
  statement (process_body fuel) lines i (Text.strip (nth i lines "")) st
  = Some (Raise e, st1) ->
  process_lines (S fuel) lines i st =
  Some (Return tt,
        with_output st1
          (Diagnostic e (Some ((Z.of_nat i + 1)%Z, Text.strip (nth i lines ""))))).
Proof.
  intros Hi Hs. rewrite (process_lines_fault _ _ _ _ _ _ Hi Hs).
  now rewrite (proj2 (strip_is_idempotent (nth i lines ""))).
Qed.

Lemma no_newline_all_dot s :
  Text.contains Text.newline s = false ->
  Text.all_chars (Re.accepts Re.Dot) s = true.
Proof.
  induction s as [|a s IH]; simpl; [reflexivity|].
  intros [Ha Hs]%orb_false_elim. now rewrite Ha, IH.
Qed.

(** X15.  The lines [execute] hands to the dispatcher are the code, no more
    and no less: joined with newlines they give the code back.  None of
    them holds a newline, so the dot of the patterns accepts every
    character of every line. *)
Theorem execute_lines_are_the_code code :
  let lines := Text.split Text.newline code in
  String.concat (String Text.newline "") lines = code
  /\ Forall (fun line => Text.all_chars (Re.accepts Re.Dot) line = true) lines.
Proof.
  destruct (split_then_join Text.newline code) as [Hjoin Hno].
  split; [exact Hjoin|].
  eapply List.Forall_impl; [|exact Hno].
  intros line. apply no_newline_all_dot.
Qed.

(** The substitution over a scope in two parts is the substitution over
    the second part of what the first part gives. *)
Lemma substitute_app before after expr :
  substitute (before ++ after) expr = substitute after (substitute before expr).
Proof. unfold substitute. apply fold_left_app. Qed.

(** Variables whose first characters do not occur in the expression leave
    it as it is. *)
Lemma substitute_untouched vars expr :
  Forall (fun kv => match Text.first_char (fst kv) with
                    | Some c => Text.contains c expr = false
                    | None => False
                    end) vars ->
  substitute vars expr = expr.
Proof.
  unfold substitute. induction 1 as [|[k v] vars Hk _ IH]; simpl; [reflexivity|].
  destruct k as [|c k]; simpl in Hk; [contradiction|].
  unfold Text.replace. now rewrite replace_from_absent.
Qed.

(** X22.  Substitution is by text, not by identifier, and goes through the
    scope in order.  Take any scope and any variable of it such that no
    variable before it touches the expression.  Where the name of that
    variable stands at the front of the expression, also as the beginning
    of a longer word, the text of its value takes its place, the same
    replacement is made in the rest, and the variables after it are then
    substituted into the result. *)
Theorem substitute_hits_longer_words before name v after rest :
  name <> "" ->
  Forall (fun kv => match Text.first_char (fst kv) with
                    | Some c => Text.contains c (name +:+ rest) = false
                    | None => False
                    end) before ->
  substitute (before ++ (name, v) :: after) (name +:+ rest)
  = substitute after (py_str v +:+ Text.replace name (py_str v) rest).
Proof.
  intros Hne Hbefore.
  rewrite substitute_app, (substitute_untouched _ _ Hbefore).
  change (substitute ((name, v) :: after) (name +:+ rest))
    with (substitute after (Text.replace name (py_str v) (name +:+ rest))).
  now rewrite replace_at_front.
Qed.

End TextInUse.

(** ** The further properties at work *)

Section MoreRuns.

Import SmallHost Examples MoreExamples.



Lemma malformed_declaration_reported_twice_witness :
  @process_lines host 1 ["var y"] 0 initial =
  Some (Return tt,
        with_output
          (with_output initial
             (Diagnostic (SyntaxError "Variable declaration syntax error: var y") None))
          (Diagnostic (SyntaxError "Variable declaration syntax error: var y")
             (Some (1%Z, "var y")))).
Proof.
  exact (@malformed_declaration_reported_twice host 0 ["var y"] 0 initial
           ltac:(simpl; lia) eq_refl eq_refl).
Defined.


Lemma function_definition_registers_witness :
  exists j,
    2 < j <= 7
    /\ @handle_function_definition host top_level 2 initial =
       Some (Return j,
             with_function initial "g"
               (["a"; "b"], map Text.strip (between top_level 3 j))).
Proof.
  exact (@function_definition_registers host top_level 2 initial "g" "a, b"
           ltac:(simpl; lia) eq_refl).
Defined.

Lemma unbalanced_definition_takes_the_rest_witness :
  @process_lines host 2 unbalanced 0 initial =
  Some (Return tt, with_function initial "f" ([], ["log(1)"; "{"])).
Proof.
  refine (@unbalanced_definition_takes_the_rest host 0 unbalanced 0 initial "f" ""
            ltac:(simpl; lia) eq_refl eq_refl _).
  intros [|[|[|k]]] Hk; [discriminate | discriminate | discriminate | simpl in Hk; lia].
Defined.

Lemma statement_advances_witness : 1 < 2 <= S (length top_level).
Proof.
  exact (@statement_advances host (process_body 3) top_level 1 "var n = 7"
           initial 2 st_n ltac:(simpl; lia) ltac:(vm_compute; reflexivity)).
Defined.

Lemma blank_lines_do_nothing_witness :
  @process_lines host 4 blank 0 st_f = Some (Return tt, st_f).
Proof.
  exact (@blank_lines_do_nothing host 4 blank 0 st_f eq_refl ltac:(simpl; lia)).
Defined.



Lemma unknown_function_is_reported_witness :
  @process_lines host 1 ["g(1)"] 0 st_f =
  Some (Return tt,
        with_output st_f
          (Diagnostic (NameError "Unknown function: g") (Some (1%Z, "g(1)")))).
Proof.
  exact (@unknown_function_is_reported host 0 ["g(1)"] 0 st_f "g" "1"
           ltac:(simpl; lia) eq_refl eq_refl eq_refl eq_refl eq_refl
           ltac:(vm_compute; eauto) eq_refl ltac:(vm_compute; reflexivity)).
Defined.

Lemma log_pattern_accepts_witness :
  Re.re_match Re.log_pattern "log(f(x), 'a')" = Some ["f(x), 'a'"]
  /\ Re.re_match Re.log_pattern "log()" = None.
Proof.
  split.
  - exact (proj1 log_pattern_accepts "f(x), 'a'" "" ltac:(discriminate) eq_refl eq_refl).
  - exact (proj2 log_pattern_accepts ")" eq_refl).
Defined.

Lemma call_pattern_accepts_witness :
  Re.re_match Re.call_pattern "f(g(1), 2)" = Some ["f"; "g(1), 2"].
Proof.
  exact (call_pattern_accepts "f" "g(1), 2" "" ltac:(discriminate) eq_refl eq_refl eq_refl).
Defined.

Lemma statement_call_pattern_accepts_witness :
  is_Some (Re.re_match Re.statement_call_pattern "x = f(1)").
Proof.
  exact (statement_call_pattern_accepts "x = f" "1" "" eq_refl eq_refl).
Defined.

Lemma var_pattern_accepts_witness :
  Re.re_match Re.var_pattern "var n = 7" = Some ["n"; "7"].
Proof.
  exact (var_pattern_accepts " " "n" " " " " "7" ltac:(discriminate) eq_refl
           ltac:(discriminate) eq_refl eq_refl eq_refl eq_refl eq_refl).
Defined.

Lemma func_pattern_accepts_witness :
  Re.re_match Re.func_pattern "func g(a, b) {" = Some ["g"; "a, b"].
Proof.
  exact (func_pattern_accepts " " "g" "a, b" " " "" ltac:(discriminate) eq_refl
           ltac:(discriminate) eq_refl eq_refl eq_refl eq_refl).
Defined.

Lemma substitute_leaves_unrelated_text_witness :
  @substitute host [("a", VInt 2)] "5+3" = "5+3".
Proof.
  apply (@substitute_leaves_unrelated_text host).
  constructor; [reflexivity | constructor].
Defined.

Lemma diagnostic_shows_dispatched_line_witness :
  @process_lines host 1 ["  what  "] 0 initial =
  Some (Return tt,
        with_output initial
          (Diagnostic (SyntaxError "Unknown statement: what") (Some (1%Z, "what")))).
Proof.
  exact (@diagnostic_shows_dispatched_line host 0 ["  what  "] 0 initial
           (SyntaxError "Unknown statement: what") initial
           ltac:(simpl; lia) eq_refl).
Defined.

Lemma substitute_hits_longer_words_witness :
  @substitute host [("z", VInt 1); ("a", VInt 2); ("b", VInt 5)] "ab"
  = @substitute host [("b", VInt 5)] ("2" +:+ Text.replace "a" "2" "b").
Proof.
  refine (@substitute_hits_longer_words host [("z", VInt 1)] "a" (VInt 2)
            [("b", VInt 5)] "b" ltac:(discriminate) _).
  constructor; [reflexivity | constructor].
Defined.

End MoreRuns.
